(** * ChatZilla signalling relay: room registry, event fan-out and signal routing

    A shallow embedding of [index.js], [lib/rooms.js] and [api/join.js].

    - JavaScript strings are sequences of UTF-16 code units ([list N]); [trim]
      and [slice(0, 64)] work on code units as they do in the engine.
    - A request body is given by what [JSON.parse] makes of its text: a JSON
      value or a SyntaxError.  The engine's own functions that the program
      calls on values ([JSON.stringify], the conversion of a number to a
      string and to a boolean) are parameters of the development.
    - [rooms] is a [Map] that the program never iterates: a [gmap].  A room's
      [clients] is a [Map] that the program iterates with [entries()], in
      insertion order: an association list with the [Map] operations.
    - Every handler is a function from the registry to the new registry and
      the list of effects it performs, in program order: the HTTP response and
      the writes on the event streams.  A handler reads and changes the
      registry only after its one [await], in one synchronous run, so the
      handlers are the atomic steps of the relay.  The identifier that
      [generateClientId()] draws is an input of the join handlers.
    - The 20 s heartbeat timer of an event stream and the response headers
      other than the status are left out. *)

From Stdlib Require Import NArith List Lia.
From stdpp Require Import base option list gmap strings pretty.
Import ListNotations.

Set Warnings "-register-all".
Local Open Scope N_scope.

(** ** JavaScript strings *)

Abbreviation jsstring := (list N).

(** A source literal, code unit by code unit. *)
Definition lit (s : string) : jsstring :=
  List.map Ascii.N_of_ascii (String.list_ascii_of_string s).

(** The line feed of the template literals ([\n]). *)
Definition NL : jsstring := [10].

(** WhiteSpace and LineTerminator code units, as [String.prototype.trim]
    strips them: TAB, LF, VT, FF, CR, SP, NBSP, the Unicode space separators,
    LS, PS and the byte order mark. *)
Definition is_js_space (c : N) : bool :=
  (9 <=? c) && (c <=? 13)
  || (c =? 32) || (c =? 160) || (c =? 5760)
  || (8192 <=? c) && (c <=? 8202)
  || (c =? 8232) || (c =? 8233) || (c =? 8239) || (c =? 8287)
  || (c =? 12288) || (c =? 65279).

Fixpoint trim_start (s : jsstring) : jsstring :=
  match s with
  | c :: s' => if is_js_space c then trim_start s' else s
  | [] => []
  end.

Definition trim_end (s : jsstring) : jsstring := rev (trim_start (rev s)).

(** [s.trim()] *)
Definition trim (s : jsstring) : jsstring := trim_end (trim_start s).

(** [s.slice(0, n)] *)
Definition slice0 (n : nat) (s : jsstring) : jsstring := firstn n s.

(** ** The [Map] of a room's clients

    Entries are kept in insertion order, which [entries()] follows.  A [Map]
    holds one entry per key. *)

Module JsMap.
Section Ops.
Context {V : Type}.

Fixpoint get (k : jsstring) (m : list (jsstring * V)) : option V :=
  match m with
  | [] => None
  | (k', v) :: rest => if decide (k' = k) then Some v else get k rest
  end.

Definition has (k : jsstring) (m : list (jsstring * V)) : bool :=
  match get k m with Some _ => true | None => false end.

(** [m.set(k, v)]: the entry of a key that is present keeps its place, a new
    key goes to the end. *)
Fixpoint set (k : jsstring) (v : V) (m : list (jsstring * V)) : list (jsstring * V) :=
  match m with
  | [] => [(k, v)]
  | (k', v') :: rest =>
      if decide (k' = k) then (k, v) :: rest else (k', v') :: set k v rest
  end.

Fixpoint delete (k : jsstring) (m : list (jsstring * V)) : list (jsstring * V) :=
  match m with
  | [] => []
  | (k', v') :: rest =>
      if decide (k' = k) then delete k rest else (k', v') :: delete k rest
  end.

Definition size (m : list (jsstring * V)) : nat := length m.

Definition keys (m : list (jsstring * V)) : list jsstring := List.map fst m.

End Ops.
End JsMap.

(** ** Registry state and effects *)

(** An open response object used as an event stream, by identity. *)
Abbreviation handle := nat.

(** [{ name, res }] *)
Record client : Type := Client { name : jsstring; res : option handle }.

(** [{ clients: Map }] *)
Record roomData : Type := RoomData { clients : list (jsstring * client) }.

(** [rooms] *)
Abbreviation registry := (gmap jsstring roomData).

Inductive effect : Type :=
| Respond (status : nat) (body : option jsstring)
    (* writeHead(status) and end(body) on the response of the request *)
| StreamHead (h : handle)
    (* writeHead(200, text/event-stream) on a response that stays open *)
| Write (h : handle) (chunk : jsstring)
| End (h : handle).

(** ** JSON values and the conversions the handlers apply to them *)

(** A JSON value, over the engine's numbers. *)
Inductive json {number : Type} : Type :=
| JNull
| JBool (b : bool)
| JNum (n : number)
| JStr (s : jsstring)
| JArr (elems : list json)
| JObj (props : list (jsstring * json)).

Arguments json : clear implicits.

(** What the program calls and the engine provides: [Boolean(n)] and
    [String(n)] on a number, and [JSON.stringify] on a value. *)
Class Engine (number : Type) : Type := {
  number_truthy : number -> bool;
  number_toString : number -> jsstring;
  JSON_stringify : json number -> jsstring
}.

Section Relay.

Context `{Engine number}.
Implicit Types (v : json number) (rooms : registry).

(** The own property [k] of an object built by [JSON.parse] ([None]:
    [undefined]). *)
Fixpoint own_prop (k : jsstring) (props : list (jsstring * json number))
    : option (json number) :=
  match props with
  | [] => None
  | (k', v) :: rest => if decide (k' = k) then Some v else own_prop k rest
  end.

(** [v.k] for a value [v] other than [null]: arrays, strings, numbers and
    booleans have none of the property names the handlers read. *)
Definition get_prop (v : json number) (k : jsstring) : option (json number) :=
  match v with
  | JObj props => own_prop k props
  | _ => None
  end.

(** Truthiness of a value that may be [undefined]. *)
Definition truthy (v : option (json number)) : bool :=
  match v with
  | None => false
  | Some JNull => false
  | Some (JBool b) => b
  | Some (JNum n) => number_truthy n
  | Some (JStr s) => match s with [] => false | _ => true end
  | Some (JArr _) => true
  | Some (JObj _) => true
  end.

(** [String(v)] ([None]: it throws a TypeError).  An array joins the strings
    of its elements with a comma, [null] elements giving the empty string.  A
    plain object gives [[object Object]] through [Object.prototype.toString],
    unless an own property named [toString] shadows it: that property is not
    callable, [valueOf] returns the object itself, and the conversion throws. *)
Fixpoint js_String (v : json number) : option jsstring :=
  match v with
  | JNull => Some (lit "null")
  | JBool b => Some (if b then lit "true" else lit "false")
  | JNum n => Some (number_toString n)
  | JStr s => Some s
  | JArr elems =>
      (fix join (l : list (json number)) : option jsstring :=
         match l with
         | [] => Some []
         | x :: rest =>
             match (match x with JNull => Some [] | _ => js_String x end), join rest with
             | Some e, Some r =>
                 Some (match rest with [] => e | _ => e ++ lit "," ++ r end)
             | _, _ => None
             end
         end) elems
  | JObj props =>
      match own_prop (lit "toString") props with
      | Some _ => None
      | None => Some (lit "[object Object]")
      end
  end.

(** [String(v)] for a property that may be [undefined]. *)
Definition String_of (v : option (json number)) : option jsstring :=
  match v with
  | None => Some (lit "undefined")
  | Some j => js_String j
  end.

(** [!s] on a string. *)
Definition js_empty (s : jsstring) : bool :=
  match s with [] => true | _ => false end.

(** ** lib/rooms.js *)

(** [getRoom(roomId)]: the registry after the call and the room object. *)
Definition getRoom (roomId : jsstring) (rooms : registry) : registry * roomData :=
  match rooms !! roomId with
  | Some room => (rooms, room)
  | None => (<[roomId := RoomData []]> rooms, RoomData [])
  end.

(** [sendEvent(res, event, payload)]: the two writes of one frame. *)
Definition sendEvent (h : handle) (event : jsstring) (payload : json number) : list effect :=
  [ Write h (lit "event: " ++ event ++ NL);
    Write h (lit "data: " ++ JSON_stringify payload ++ NL ++ NL) ].

(** The body of the loop of [broadcast] for one entry. *)
Definition broadcast_entry (excludeClientId event : jsstring) (payload : json number)
    (entry : jsstring * client) : list effect :=
  if decide (entry.1 = excludeClientId) then []
  else match res entry.2 with
       | Some h => sendEvent h event payload
       | None => []
       end.

(** [broadcast(roomId, excludeClientId, event, payload)] *)
Definition broadcast (roomId excludeClientId event : jsstring) (payload : json number)
    (rooms : registry) : list effect :=
  match rooms !! roomId with
  | None => []
  | Some room =>
      flat_map (broadcast_entry excludeClientId event payload) (clients room)
  end.

(** The payload [{ clientId }] of [peer-left]. *)
Definition peer_left_payload (clientId : jsstring) : json number :=
  JObj [(lit "clientId", JStr clientId)].

(** [removeClient(roomId, clientId)] *)
Definition removeClient (roomId clientId : jsstring) (rooms : registry)
    : registry * list effect :=
  match rooms !! roomId with
  | None => (rooms, [])
  | Some room =>
      match JsMap.get clientId (clients room) with
      | None => (rooms, [])
      | Some c =>
          let ended := match res c with Some h => [End h] | None => [] end in
          let remaining := JsMap.delete clientId (clients room) in
          match JsMap.size remaining with
          | O => (delete roomId rooms, ended)
          | S _ =>
              let rooms' := <[roomId := RoomData remaining]> rooms in
              (rooms', ended ++ broadcast roomId clientId (lit "peer-left")
                                  (peer_left_payload clientId) rooms')
          end
      end
  end.

(** ** index.js *)

(** What the request stream delivers: no chunk at all, chunks, given by what
    [JSON.parse] makes of their text ([None]: it throws a SyntaxError), or an
    error. *)
Inductive raw_body : Type :=
| NoChunks
| Chunks (parsed : option (json number))
| ReadError.

(** [parseBody(req)] ([None]: the promise is rejected). *)
Definition parseBody (req : raw_body) : option (json number) :=
  match req with
  | NoChunks => Some (JObj [])
  | Chunks parsed => parsed
  | ReadError => None
  end.

(** [JSON.stringify({ error: msg })] sent with a status. *)
Definition error_response (status : nat) (msg : string) : effect :=
  Respond status (Some (JSON_stringify (JObj [(lit "error", JStr (lit msg))]))).

(** The [catch] branch of the three POST handlers. *)
Definition invalid_json_body : effect := error_response 400 "Invalid JSON body".

(** Destructuring [const { ... } = body] throws on [null]. *)
Definition destructurable (body : json number) : bool :=
  match body with JNull => false | _ => true end.

(** [room ? String(room).trim() : ''] ([None]: [String] throws). *)
Definition roomId_of (room : option (json number)) : option jsstring :=
  if truthy room then trim <$> String_of room else Some [].

(** [name ? String(name).trim().slice(0, 64) : ''] *)
Definition userName_of (name : option (json number)) : option jsstring :=
  if truthy name then (fun s => slice0 64 (trim s)) <$> String_of name else Some [].

(** [{ clientId: id, name: client.name }] *)
Definition peer_json (entry : jsstring * client) : json number :=
  JObj [(lit "clientId", JStr entry.1); (lit "name", JStr (name entry.2))].

(** [{ clientId, room: roomId, peers: existingPeers }] *)
Definition join_response (clientId roomId : jsstring)
    (existingPeers : list (json number)) : json number :=
  JObj [(lit "clientId", JStr clientId); (lit "room", JStr roomId);
        (lit "peers", JArr existingPeers)].

(** [{ clientId, name: userName }] *)
Definition peer_joined_payload (clientId userName : jsstring) : json number :=
  JObj [(lit "clientId", JStr clientId); (lit "name", JStr userName)].

(** Lines 159-172 of [index.js], and 30-41 of [api/join.js], which are the
    same statements: the room is fetched or created, the peers are listed,
    the caller is registered, the response is sent and the peers are told. *)
Definition register_and_respond (roomId userName clientId : jsstring)
    (rooms : registry) : registry * list effect :=
  let '(rooms1, room) := getRoom roomId rooms in
  let existingPeers := List.map peer_json (clients room) in
  let rooms2 :=
    <[roomId := RoomData (JsMap.set clientId (Client userName None) (clients room))]> rooms1 in
  (rooms2,
   Respond 200 (Some (JSON_stringify (join_response clientId roomId existingPeers)))
   :: broadcast roomId clientId (lit "peer-joined")
        (peer_joined_payload clientId userName) rooms2).

(** [handleJoin(req, res)], with the identifier [generateClientId()] returns. *)
Definition handleJoin (req : raw_body) (clientId : jsstring) (rooms : registry)
    : registry * list effect :=
  match parseBody req with
  | None => (rooms, [invalid_json_body])
  | Some body =>
      if negb (destructurable body) then (rooms, [invalid_json_body]) else
      match roomId_of (get_prop body (lit "room")) with
      | None => (rooms, [invalid_json_body])
      | Some roomId =>
          match userName_of (get_prop body (lit "name")) with
          | None => (rooms, [invalid_json_body])
          | Some userName =>
              if js_empty roomId || js_empty userName
              then (rooms, [error_response 400 "Missing room or name"])
              else register_and_respond roomId userName clientId rooms
          end
      end
  end.

(** An object literal as [JSON.stringify] reads it: a property whose value is
    [undefined] is left out. *)
Definition object_literal (fields : list (jsstring * option (json number)))
    : json number :=
  JObj (omap (fun '(k, v) => pair k <$> v) fields).

(** [{ from, data }] *)
Definition signal_payload (from data : option (json number)) : json number :=
  object_literal [(lit "from", from); (lit "data", data)].

(** [handleSignal(req, res)] *)
Definition handleSignal (req : raw_body) (rooms : registry) : registry * list effect :=
  match parseBody req with
  | None => (rooms, [invalid_json_body])
  | Some body =>
      if negb (destructurable body) then (rooms, [invalid_json_body]) else
      let room := get_prop body (lit "room") in
      let from := get_prop body (lit "from") in
      let target := get_prop body (lit "target") in
      let data := get_prop body (lit "data") in
      if negb (truthy room) || negb (truthy from)
         || negb (truthy target) || negb (truthy data)
      then (rooms, [error_response 400 "Missing required fields"])
      else
        match String_of room with
        | None => (rooms, [invalid_json_body])
        | Some roomKey =>
            match rooms !! roomKey with
            | None => (rooms, [error_response 404 "Room not found"])
            | Some roomData =>
                match String_of target with
                | None => (rooms, [invalid_json_body])
                | Some targetKey =>
                    match JsMap.get targetKey (clients roomData) with
                    | None => (rooms, [error_response 409 "Recipient unavailable"])
                    | Some recipient =>
                        match res recipient with
                        | None => (rooms, [error_response 409 "Recipient unavailable"])
                        | Some h =>
                            (rooms,
                             sendEvent h (lit "signal") (signal_payload from data)
                             ++ [Respond 204 None])
                        end
                    end
                end
            end
        end
  end.

(** [handleLeave(req, res)] *)
Definition handleLeave (req : raw_body) (rooms : registry) : registry * list effect :=
  match parseBody req with
  | None => (rooms, [invalid_json_body])
  | Some body =>
      if negb (destructurable body) then (rooms, [invalid_json_body]) else
      let room := get_prop body (lit "room") in
      let clientId := get_prop body (lit "clientId") in
      if negb (truthy room) || negb (truthy clientId)
      then (rooms, [error_response 400 "Missing room or clientId"])
      else
        match String_of room, String_of clientId with
        | Some roomKey, Some clientKey =>
            let '(rooms', effects) := removeClient roomKey clientKey rooms in
            (rooms', effects ++ [Respond 204 None])
        | _, _ => (rooms, [invalid_json_body])
        end
  end.

(** [handleEventStream(req, res, parsedUrl)]: the two query parameters as
    [searchParams.get] returns them ([None]: [null]) and the response object
    [h], which becomes the stream. *)
Definition handleEventStream (roomId clientId : option jsstring) (h : handle)
    (rooms : registry) : registry * list effect :=
  match roomId, clientId with
  | Some ((_ :: _) as roomId), Some ((_ :: _) as clientId) =>
      match rooms !! roomId with
      | None => (rooms, [Respond 404 (Some (lit "Client not registered in room"))])
      | Some room =>
          match JsMap.get clientId (clients room) with
          | None => (rooms, [Respond 404 (Some (lit "Client not registered in room"))])
          | Some c =>
              (<[roomId := RoomData (JsMap.set clientId (Client (name c) (Some h))
                                       (clients room))]> rooms,
               [StreamHead h; Write h NL])
          end
      end
  | _, _ => (rooms, [Respond 400 (Some (lit "Missing room or clientId"))])
  end.

(** The [close] listener that [handleEventStream] installs on the request of
    an opened stream. *)
Definition onClose (roomId clientId : jsstring) (rooms : registry)
    : registry * list effect :=
  match rooms !! roomId with
  | None => (rooms, [])
  | Some currentRoom =>
      match JsMap.get clientId (clients currentRoom) with
      | None => (rooms, [])
      | Some _ =>
          let remaining := JsMap.delete clientId (clients currentRoom) in
          match JsMap.size remaining with
          | O => (delete roomId rooms, [])
          | S _ =>
              let rooms' := <[roomId := RoomData remaining]> rooms in
              (rooms', broadcast roomId clientId (lit "peer-left")
                         (peer_left_payload clientId) rooms')
          end
      end
  end.

(** ** api/join.js *)

(** [normalizeBody(body)], on the body the platform hands over: [undefined]
    ([None]), a string or a parsed JSON value.  [parsed] is what [JSON.parse]
    makes of [body] when it is a string ([None]: it throws a SyntaxError). *)
Definition normalizeBody (body parsed : option (json number)) : json number :=
  if negb (truthy body) then JObj [] else
  match body with
  | Some (JStr _) =>
      match parsed with
      | Some value => value
      | None => JObj []
      end
  | Some b => b
  | None => JObj []
  end.

(** [handler(req, res)] ([None]: an exception leaves the handler, which has
    no [try]). *)
Definition handler (method : jsstring) (req_body parsed : option (json number))
    (clientId : jsstring) (rooms : registry) : option (registry * list effect) :=
  if negb (bool_decide (method = lit "POST")) then Some (rooms, [Respond 405 None]) else
  let body := normalizeBody req_body parsed in
  if negb (destructurable body) then None else
  match roomId_of (get_prop body (lit "room")) with
  | None => None
  | Some roomId =>
      match userName_of (get_prop body (lit "name")) with
      | None => None
      | Some userName =>
          if js_empty roomId || js_empty userName
          then Some (rooms, [error_response 400 "Missing room or name"])
          else Some (register_and_respond roomId userName clientId rooms)
      end
  end.

(** ** The relay as a transition system *)

(** What can happen to the registry: a request reaches one of the handlers,
    or an opened stream closes. *)
Inductive event : Type :=
| Join (req : raw_body) (clientId : jsstring)
| ApiJoin (method : jsstring) (req_body parsed : option (json number))
    (clientId : jsstring)
| Signal (req : raw_body)
| Leave (req : raw_body)
| EventStream (roomId clientId : option jsstring) (h : handle)
| StreamClosed (roomId clientId : jsstring).

Definition step (e : event) (rooms : registry) : registry * list effect :=
  match e with
  | Join req clientId => handleJoin req clientId rooms
  | ApiJoin method req_body parsed clientId =>
      match handler method req_body parsed clientId rooms with
      | Some r => r
      | None => (rooms, [])
      end
  | Signal req => handleSignal req rooms
  | Leave req => handleLeave req rooms
  | EventStream roomId clientId h => handleEventStream roomId clientId h rooms
  | StreamClosed roomId clientId => onClose roomId clientId rooms
  end.

(** The registry and the effects, oldest first, after a list of events. *)
Fixpoint run (es : list event) (rooms : registry) : registry * list effect :=
  match es with
  | [] => (rooms, [])
  | e :: es' =>
      let '(rooms1, out1) := step e rooms in
      let '(rooms2, out2) := run es' rooms1 in
      (rooms2, out1 ++ out2)
  end.

(** ** Vocabulary of the properties *)

(** The session table of a room: empty when the room is not in the registry. *)
Definition sessions (roomId : jsstring) (rooms : registry) : list (jsstring * client) :=
  match rooms !! roomId with
  | Some room => clients room
  | None => []
  end.

(** Every session table of the registry holds one entry per client
    identifier, as a [Map] does. *)
Definition unique_sessions (rooms : registry) : Prop :=
  forall roomId room, rooms !! roomId = Some room -> NoDup (JsMap.keys (clients room)).

(** No room of the registry has an empty session table. *)
Definition no_empty_room (rooms : registry) : Prop :=
  forall roomId room, rooms !! roomId = Some room -> clients room <> [].

(** The statuses of the HTTP responses among the effects, and the effects on
    event streams. *)
Definition statuses (out : list effect) : list nat :=
  flat_map (fun e => match e with Respond status _ => [status] | _ => [] end) out.

Definition stream_effects (out : list effect) : list effect :=
  List.filter (fun e => match e with Respond _ _ => false | _ => true end) out.

(** The field [k] of the body of a request ([None]: there is none, also when
    the body is no JSON text or is [null]). *)
Definition request_field (req : raw_body) (k : jsstring) : option (json number) :=
  match parseBody req with
  | Some body => get_prop body k
  | None => None
  end.

(** A field that is absent ([undefined] or [null]) or the empty string. *)
Definition absent_or_empty (v : option (json number)) : Prop :=
  v = None \/ v = Some JNull \/ v = Some (JStr []).

(** A Signal request whose four fields are present and truthy. *)
Definition signal_request (req : raw_body) (room from target data : json number) : Prop :=
  request_field req (lit "room") = Some room
  /\ request_field req (lit "from") = Some from
  /\ request_field req (lit "target") = Some target
  /\ request_field req (lit "data") = Some data
  /\ truthy (Some room) = true /\ truthy (Some from) = true
  /\ truthy (Some target) = true /\ truthy (Some data) = true.

(** The outcome of a Signal request whose four fields are truthy, read off
    the registry. *)
Definition signal_outcome (room from target data : json number) rooms
    : registry * list effect :=
  match js_String room with
  | None => (rooms, [invalid_json_body])
  | Some roomKey =>
      match rooms !! roomKey with
      | None => (rooms, [error_response 404 "Room not found"])
      | Some roomData =>
          match js_String target with
          | None => (rooms, [invalid_json_body])
          | Some targetKey =>
              match JsMap.get targetKey (clients roomData) ≫= res with
              | None => (rooms, [error_response 409 "Recipient unavailable"])
              | Some h =>
                  (rooms, sendEvent h (lit "signal")
                            (JObj [(lit "from", from); (lit "data", data)])
                          ++ [Respond 204 None])
              end
          end
      end
  end.

(** The registry after [removeClient] on a session that is there. *)
Definition registry_without (roomId clientId : jsstring) (room : roomData) rooms
    : registry :=
  match JsMap.delete clientId (clients room) with
  | [] => delete roomId rooms
  | remaining => <[roomId := RoomData remaining]> rooms
  end.

(** A Leave request for the session [clientId] of the room [roomId]. *)
Definition leave_request (req : raw_body) (roomId clientId : jsstring) : Prop :=
  exists room client,
    request_field req (lit "room") = Some room
    /\ request_field req (lit "clientId") = Some client
    /\ truthy (Some room) = true /\ truthy (Some client) = true
    /\ js_String room = Some roomId /\ js_String client = Some clientId.

(** The event [e] is a Join with room identifier [roomId] and name
    [userName], both as the handler computes them and both non-empty, in
    which [generateClientId()] returns [clientId]. *)
Definition joins (e : event) (roomId userName clientId : jsstring) : Prop :=
  roomId <> [] /\ userName <> [] /\
  match e with
  | Join req id =>
      id = clientId
      /\ roomId_of (request_field req (lit "room")) = Some roomId
      /\ userName_of (request_field req (lit "name")) = Some userName
  | ApiJoin method req_body parsed id =>
      id = clientId /\ method = lit "POST"
      /\ roomId_of (get_prop (normalizeBody req_body parsed) (lit "room")) = Some roomId
      /\ userName_of (get_prop (normalizeBody req_body parsed) (lit "name")) = Some userName
  | _ => False
  end.

(** The event [e] asks for the teardown of the session [clientId] of the room
    [roomId]: an explicit Leave, or the close of its stream. *)
Definition tears_down (e : event) (roomId clientId : jsstring) : Prop :=
  match e with
  | Leave req => leave_request req roomId clientId
  | StreamClosed room client => room = roomId /\ client = clientId
  | _ => False
  end.

(** One who joins: the event, the name the handler stores and the identifier
    drawn for it. *)
Record joiner : Type := Joiner { jevent : event; jname : jsstring; jid : jsstring }.

(** The entry of the peer list for one who joined. *)
Definition peer_of (j : joiner) : json number :=
  JObj [(lit "clientId", JStr (jid j)); (lit "name", JStr (jname j))].

End Relay.

(** ** Vocabulary of the further properties *)

(** A room identifier as Join makes them: not empty and trimmed.  A name as
    Join stores them: not empty, of 64 code units at most, and starting with
    no whitespace. *)
Definition tidy_room_id (s : jsstring) : Prop := s <> [] /\ trim s = s.

Definition tidy_name (s : jsstring) : Prop :=
  s <> [] /\ (length s <= 64)%nat /\ trim_start s = s.

Definition tidy_registry (rooms : registry) : Prop :=
  forall roomId room,
    rooms !! roomId = Some room ->
    tidy_room_id roomId /\ Forall (fun entry => tidy_name (name entry.2)) (clients room).

(** The streams of the sessions all come from [known]. *)
Definition streams_within (known : list handle) (rooms : registry) : Prop :=
  forall roomId id c h,
    In (id, c) (sessions roomId rooms) -> res c = Some h -> In h known.

(** The response objects that the stream requests among the events came
    with. *)
Definition stream_requests {number : Type} (es : list (@event number)) : list handle :=
  flat_map (fun e => match e with EventStream _ _ h => [h] | _ => [] end) es.

(** ** The rest of index.js: the router and the static files *)

Section Router.

Context `{Engine number}.

(** The streams a broadcast reaches: the handles of the sessions of the room
    that have one, the excluded client apart, in the order of [entries()]. *)
Definition attached_peers (roomId excludeClientId : jsstring) (rooms : registry)
    : list handle :=
  omap (fun entry : jsstring * client =>
          if decide (entry.1 = excludeClientId) then None else res entry.2)
       (sessions roomId rooms).

(** What [new URL(req.url, base)] gives when it does not throw, as the
    router and [handleEventStream] read it: [pathname], and what
    [searchParams.get] returns for [room] and [clientId]. *)
Record parsed_url : Type := ParsedUrl {
  url_pathname : jsstring;
  url_room : option jsstring;
  url_clientId : option jsstring
}.

(** A request as [requestListener] reads it: [req.method], what [new URL]
    makes of [req.url] and the [Host] header ([None]: it throws a TypeError),
    the body the request stream will deliver, the response object and the
    identifier [generateClientId()] returns if it is called. *)
Record request : Type := Request {
  req_method : jsstring;
  req_url : option parsed_url;
  req_chunks : @raw_body number;
  req_res : handle;
  next_id : jsstring
}.

(** What [requestListener] does with a request: it throws, one of the
    handlers runs, or [serveStatic] is called with a path.  The listener is
    an [async] function whose promise nothing awaits: when it throws, the
    promise is rejected and the rejection is not handled, which ends the
    process under the default of Node.js 15 and later.  [new URL] is the one
    call of the listener outside of a [try]; the three POST handlers catch
    what is thrown in them. *)
Inductive routed : Type :=
| Thrown
| Handled (result : registry * list effect)
| Static (pathname : jsstring).

(** [requestListener(req, res)] *)
Definition requestListener (rq : request) (rooms : registry) : routed :=
  match req_url rq with
  | None => Thrown
  | Some parsedUrl =>
      if bool_decide (req_method rq = lit "GET")
         && bool_decide (url_pathname parsedUrl = lit "/events")
      then Handled (handleEventStream (url_room parsedUrl) (url_clientId parsedUrl)
                      (req_res rq) rooms)
      else if bool_decide (req_method rq = lit "POST")
              && (bool_decide (url_pathname parsedUrl = lit "/join")
                  || bool_decide (url_pathname parsedUrl = lit "/api/join"))
      then Handled (handleJoin (req_chunks rq) (next_id rq) rooms)
      else if bool_decide (req_method rq = lit "POST")
              && bool_decide (url_pathname parsedUrl = lit "/signal")
      then Handled (handleSignal (req_chunks rq) rooms)
      else if bool_decide (req_method rq = lit "POST")
              && bool_decide (url_pathname parsedUrl = lit "/leave")
      then Handled (handleLeave (req_chunks rq) rooms)
      else if bool_decide (req_method rq = lit "OPTIONS")
      then Handled (rooms, [Respond 204 None])
      else Static (if bool_decide (url_pathname parsedUrl = lit "/")
                   then lit "/index.html" else url_pathname parsedUrl)
  end.

(** A field that is falsy or a string of whitespace only. *)
Definition blank (v : option (json number)) : Prop :=
  truthy v = false \/ exists s, v = Some (JStr s) /\ trim s = [].

(** The registry the listener leaves ([None]: it threw, and the registry
    goes with the process).  [serveStatic] does not read or change the
    registry. *)
Definition registry_after (rq : request) (rooms : registry) : option registry :=
  match requestListener rq rooms with
  | Thrown => None
  | Handled result => Some result.1
  | Static _ => Some rooms
  end.

End Router.

Section StaticFiles.

(** The file system and [path], as [serveStatic] and [getMimeType] use them:
    [publicDir] is [path.join(__dirname, 'public')], [resolve pathname] is
    [path.normalize(path.join(publicDir, pathname))], [isFile p] tells
    whether [fs.stat] succeeds on [p] with a regular file, and [extname p] is
    [path.extname(p).toLowerCase()]. *)
Variable publicDir : jsstring.
Variable resolve : jsstring -> jsstring.
Variable isFile : jsstring -> bool.
Variable extname : jsstring -> jsstring.

(** [s.startsWith(prefix)] *)
Fixpoint startsWith (s prefix : jsstring) : bool :=
  match prefix, s with
  | [], _ => true
  | p :: prefix', c :: s' => (c =? p) && startsWith s' prefix'
  | _ :: _, [] => false
  end.

(** [getMimeType(filePath)] *)
Definition getMimeType (filePath : jsstring) : jsstring :=
  let ext := extname filePath in
  if bool_decide (ext = lit ".html") then lit "text/html; charset=utf-8"
  else if bool_decide (ext = lit ".css") then lit "text/css; charset=utf-8"
  else if bool_decide (ext = lit ".js") then lit "application/javascript; charset=utf-8"
  else if bool_decide (ext = lit ".json") then lit "application/json; charset=utf-8"
  else if bool_decide (ext = lit ".svg") then lit "image/svg+xml"
  else if bool_decide (ext = lit ".png") then lit "image/png"
  else if bool_decide (ext = lit ".jpg") || bool_decide (ext = lit ".jpeg")
  then lit "image/jpeg"
  else lit "application/octet-stream".

(** What [serveStatic] answers: 403, 404, or 200 with the file at a path and
    its content type. *)
Inductive static_response : Type :=
| Forbidden
| NotFound
| ServeFile (safePath contentType : jsstring).

(** [serveStatic(req, res, pathname)], which calls itself for [/index.html]
    ([None]: the fuel ran out). *)
Fixpoint serveStatic (fuel : nat) (pathname : jsstring) : option static_response :=
  match fuel with
  | O => None
  | S fuel' =>
      let safePath := resolve pathname in
      if negb (startsWith safePath publicDir) then Some Forbidden
      else if negb (isFile safePath) then
        if negb (bool_decide (pathname = lit "/index.html"))
        then serveStatic fuel' (lit "/index.html")
        else Some NotFound
      else Some (ServeFile safePath (getMimeType safePath))
  end.

End StaticFiles.

(** ** public/app.js: the retries of [sendSignal] *)

Definition SIGNAL_RETRY_LIMIT : nat := 5.
Definition SIGNAL_RETRY_DELAY_MS : nat := 250.

(** What [fetch] gives: it rejects, or it resolves to a response with a
    status. *)
Inductive fetched : Type :=
| Rejected
| Responded (status : nat).

(** [response.ok] *)
Definition response_ok (status : nat) : bool :=
  (200 <=? status)%nat && (status <=? 299)%nat.

(** What [sendSignal] does, in order, and how it ends: it returns without a
    request when the client has left, it returns after a request that
    succeeded, or it throws. *)
Inductive client_action : Type :=
| Post
| Wait (ms : nat).

Inductive sent : Type :=
| Skipped
| Sent
| Threw (status : option nat).

(** [sendSignal(target, data, attempt)].  [env attempt] gives what the call
    with that attempt number meets: whether [state.roomId] and
    [state.clientId] are set, and what [fetch] gives ([None]: the fuel ran
    out). *)
Fixpoint sendSignal (fuel : nat) (env : nat -> bool * fetched) (attempt : nat)
    : option (list client_action * sent) :=
  match fuel with
  | O => None
  | S fuel' =>
      let '(joined, reply) := env attempt in
      if negb joined then Some ([], Skipped) else
      match reply with
      | Rejected => Some ([Post], Threw None)
      | Responded status =>
          if response_ok status then Some ([Post], Sent)
          else if (status =? 409)%nat && (attempt <? SIGNAL_RETRY_LIMIT)%nat then
            match sendSignal fuel' env (attempt + 1) with
            | Some (actions, result) =>
                Some (Post :: Wait (SIGNAL_RETRY_DELAY_MS * (attempt + 1)) :: actions, result)
            | None => None
            end
          else Some ([Post], Threw (Some status))
      end
  end.

(** The requests made and the time waited in a run of [sendSignal]. *)
Definition posts (actions : list client_action) : nat :=
  length (List.filter (fun a => match a with Post => true | Wait _ => false end) actions).

Definition waited (actions : list client_action) : nat :=
  list_sum (List.map (fun a => match a with Post => 0%nat | Wait ms => ms end) actions).

(** ** A concrete engine and concrete requests, for the examples

    Numbers are naturals.  [sample_stringify] prints as [JSON.stringify] does
    for values whose strings hold no lone surrogate. *)

Definition hex_digit (d : N) : N := if d <? 10 then 48 + d else 87 + d.

Definition escape_unit (c : N) : jsstring :=
  if c =? 34 then [92; 34]
  else if c =? 92 then [92; 92]
  else if c =? 8 then [92; 98]
  else if c =? 9 then [92; 116]
  else if c =? 10 then [92; 110]
  else if c =? 12 then [92; 102]
  else if c =? 13 then [92; 114]
  else if c <? 32 then [92; 117; 48; 48; hex_digit (c / 16); hex_digit (c mod 16)]
  else [c].

Definition quote (s : jsstring) : jsstring := [34] ++ flat_map escape_unit s ++ [34].

Fixpoint sample_stringify (v : json N) : jsstring :=
  match v with
  | JNull => lit "null"
  | JBool b => if b then lit "true" else lit "false"
  | JNum n => lit (pretty n)
  | JStr s => quote s
  | JArr elems =>
      lit "["
      ++ (fix items (l : list (json N)) : jsstring :=
            match l with
            | [] => []
            | x :: rest =>
                sample_stringify x
                ++ match rest with [] => [] | _ => lit "," ++ items rest end
            end) elems
      ++ lit "]"
  | JObj props =>
      lit "{"
      ++ (fix members (l : list (jsstring * json N)) : jsstring :=
            match l with
            | [] => []
            | (k, x) :: rest =>
                quote k ++ lit ":" ++ sample_stringify x
                ++ match rest with [] => [] | _ => lit "," ++ members rest end
            end) props
      ++ lit "}"
  end.

#[export] Instance sample_engine : Engine N := {
  number_truthy n := negb (n =? 0);
  number_toString n := lit (pretty n);
  JSON_stringify := sample_stringify
}.

(** [{ room, name }] and the other request bodies, as parsed. *)
Definition join_body (room name : json N) : raw_body :=
  Chunks (Some (JObj [(lit "room", room); (lit "name", name)])).

Definition signal_body (room from target data : json N) : raw_body :=
  Chunks (Some (JObj [(lit "room", room); (lit "from", from);
                      (lit "target", target); (lit "data", data)])).

Definition leave_body (room clientId : json N) : raw_body :=
  Chunks (Some (JObj [(lit "room", room); (lit "clientId", clientId)])).

(** Ada and Grace join room [r1] as [A] and [B] and open their streams [1]
    and [2]: the scenario of the specification. *)
Definition two_peers : registry :=
  (run [ Join (join_body (JStr (lit "r1")) (JStr (lit "Ada"))) (lit "A");
         Join (join_body (JStr (lit " r1 ")) (JStr (lit "Grace"))) (lit "B");
         EventStream (Some (lit "r1")) (Some (lit "A")) 1%nat;
         EventStream (Some (lit "r1")) (Some (lit "B")) 2%nat ] ∅).1.

(** [{ type: 'offer' }] *)
Definition offer : json N := JObj [(lit "type", JStr (lit "offer"))].

(** The two joiners of [two_peers], and a third request to join. *)
Definition ada : joiner :=
  Joiner (Join (join_body (JStr (lit "r1")) (JStr (lit "Ada"))) (lit "A"))
         (lit "Ada") (lit "A").

Definition grace : joiner :=
  Joiner (Join (join_body (JStr (lit " r1 ")) (JStr (lit "Grace"))) (lit "B"))
         (lit "Grace") (lit "B").

Definition carol_joins : event :=
  Join (join_body (JStr (lit "r1")) (JStr (lit "Carol"))) (lit "C").


(** A Signal from [A] to [target] in the room [room], and a Leave of [B]. *)
Definition signal_to (room target : string) : raw_body :=
  signal_body (JStr (lit room)) (JStr (lit "A")) (JStr (lit target)) offer.

Definition leave_of_B (room : string) : raw_body :=
  leave_body (JStr (lit room)) (JStr (lit "B")).

(** The events that make [two_peers]. *)
Definition two_peers_events : list (@event N) :=
  [ jevent ada; jevent grace;
    EventStream (Some (lit "r1")) (Some (lit "A")) 1%nat;
    EventStream (Some (lit "r1")) (Some (lit "B")) 2%nat ].

(** The room of [two_peers]. *)
Definition room_r1 : roomData :=
  RoomData [(lit "A", Client (lit "Ada") (Some 1%nat));
            (lit "B", Client (lit "Grace") (Some 2%nat))].

(** A Signal from [A] to [C], and a request to join as the router gets it. *)
Definition signal_to_C : raw_body :=
  signal_body (JStr (lit "r1")) (JStr (lit "A")) (JStr (lit "C")) offer.

Definition post_join : request :=
  Request (lit "POST") (Some (ParsedUrl (lit "/api/join") None None))
          (join_body (JStr (lit "r2")) (JStr (lit "Edsger"))) 9%nat (lit "D").

(** A request whose URL [new URL] rejects, as it does [//]. *)
Definition get_invalid_url : @request N :=
  Request (lit "GET") None NoChunks 9%nat (lit "D").

(** A public directory with two files; paths are joined as they are, which
    is what [path] does for paths without dot segments, and the extension
    starts at the last dot of the last segment and is put in lower case,
    which is what [path.extname] and [toLowerCase] give for a file name that
    does not start with a dot and has ASCII letters. *)
Definition sample_publicDir : jsstring := lit "/app/public".

Definition sample_resolve (pathname : jsstring) : jsstring :=
  sample_publicDir ++ pathname.

Definition sample_isFile (p : jsstring) : bool :=
  bool_decide (p = lit "/app/public/index.html")
  || bool_decide (p = lit "/app/public/app.js").

Definition to_lower (c : N) : N := if (65 <=? c) && (c <=? 90) then c + 32 else c.

Fixpoint sample_extname (p : jsstring) : jsstring :=
  match p with
  | [] => []
  | c :: rest =>
      match sample_extname rest with
      | [] => if (c =? 46) && negb (existsb (N.eqb 47) rest)
              then List.map to_lower p else []
      | ext => ext
      end
  end.

(** A server that always answers 409, and one that answers 409 twice and
    then 204, the client staying in the room. *)
Definition always_409 (attempt : nat) : bool * fetched := (true, Responded 409).

Definition third_time_lucky (attempt : nat) : bool * fetched :=
  (true, Responded (if (attempt <? 2)%nat then 409 else 204)%nat).

(** A client that gets a 409 and has left the room when the wait is over. *)
Definition leaves_while_waiting (attempt : nat) : bool * fetched :=
  ((attempt =? 0)%nat, Responded 409).

(** * Properties *)

Arguments lit : simpl never.
Arguments truthy : simpl never.
Arguments js_String : simpl never.
Arguments sendEvent : simpl never.
Arguments error_response : simpl never.
Arguments broadcast : simpl never.

(** ** The [Map] operations *)

Section JsMapFacts.
Context {V : Type}.
Implicit Types (m : list (jsstring * V)) (k : jsstring).

Lemma get_delete_eq k m : JsMap.get k (JsMap.delete k m) = None.
Proof.
  induction m as [|[k' v'] m IH]; simpl; [reflexivity|].
  destruct (decide (k' = k)) as [->|Hne]; simpl; [exact IH|].
  destruct (decide (k' = k)); [contradiction|exact IH].
Qed.

Lemma get_delete_ne k k' m :
  k' <> k -> JsMap.get k' (JsMap.delete k m) = JsMap.get k' m.
Proof.
  intros Hne. induction m as [|[k0 v0] m IH]; simpl; [reflexivity|].
  destruct (decide (k0 = k)) as [->|Hk]; simpl.
  - destruct (decide (k = k')); [congruence|exact IH].
  - destruct (decide (k0 = k')); [reflexivity|exact IH].
Qed.

Lemma get_set_eq k v m : JsMap.get k (JsMap.set k v m) = Some v.
Proof.
  induction m as [|[k' v'] m IH]; simpl.
  - destruct (decide (k = k)); [reflexivity|contradiction].
  - destruct (decide (k' = k)) as [->|Hne]; simpl.
    + destruct (decide (k = k)); [reflexivity|contradiction].
    + destruct (decide (k' = k)); [contradiction|exact IH].
Qed.

Lemma set_nonempty k v m : JsMap.set k v m <> [].
Proof. destruct m as [|[k' v'] m]; simpl; [|destruct (decide (k' = k))]; discriminate. Qed.

Lemma get_None_keys k m : JsMap.get k m = None <-> ~ In k (JsMap.keys m).
Proof.
  induction m as [|[k' v'] m IH]; simpl.
  - split; [intros _ []|reflexivity].
  - destruct (decide (k' = k)) as [->|Hne].
    + split; [discriminate|]. intros Hn. exfalso. apply Hn. now left.
    + rewrite IH. split; [intros Hn [Heq|Hin]; [contradiction|auto]|auto].
Qed.

(** A key that is not in the map goes to the end. *)
Lemma set_fresh k v m : JsMap.get k m = None -> JsMap.set k v m = m ++ [(k, v)].
Proof.
  induction m as [|[k' v'] m IH]; simpl; [reflexivity|].
  destruct (decide (k' = k)); [discriminate|]. intros Hg. now rewrite IH.
Qed.

Lemma delete_absent k m : JsMap.get k m = None -> JsMap.delete k m = m.
Proof.
  induction m as [|[k' v'] m IH]; simpl; [reflexivity|].
  destruct (decide (k' = k)); [discriminate|]. intros Hg. now rewrite IH.
Qed.

Lemma size_zero m : JsMap.size m = 0%nat -> m = [].
Proof. destruct m; [reflexivity|discriminate]. Qed.

Lemma keys_set k k' v m :
  k' ∈ JsMap.keys (JsMap.set k v m) <-> k' = k \/ k' ∈ JsMap.keys m.
Proof.
  induction m as [|[k0 v0] m IH]; simpl.
  - rewrite list_elem_of_singleton. split; [auto|]. intros [->|Hin]; [reflexivity|].
    now apply elem_of_nil in Hin.
  - destruct (decide (k0 = k)) as [->|Hne]; simpl; rewrite !elem_of_cons.
    + tauto.
    + rewrite IH. tauto.
Qed.

Lemma keys_delete k k' m :
  k' ∈ JsMap.keys (JsMap.delete k m) -> k' ∈ JsMap.keys m.
Proof.
  induction m as [|[k0 v0] m IH]; simpl; [auto|].
  destruct (decide (k0 = k)); simpl; rewrite !elem_of_cons; tauto.
Qed.

(** The operations keep the keys of a [Map] distinct. *)
Lemma NoDup_keys_set k v m : NoDup (JsMap.keys m) -> NoDup (JsMap.keys (JsMap.set k v m)).
Proof.
  induction m as [|[k0 v0] m IH]; simpl.
  - intros _. apply NoDup_singleton.
  - rewrite NoDup_cons. intros [Hnotin Hnd].
    destruct (decide (k0 = k)) as [->|Hne]; simpl; rewrite NoDup_cons.
    + auto.
    + split; [|auto]. rewrite keys_set. intros [->|Hin]; auto.
Qed.

Lemma NoDup_keys_delete k m :
  NoDup (JsMap.keys m) -> NoDup (JsMap.keys (JsMap.delete k m)).
Proof.
  induction m as [|[k0 v0] m IH]; simpl; [auto|].
  rewrite NoDup_cons. intros [Hnotin Hnd].
  destruct (decide (k0 = k)); simpl; [auto|].
  rewrite NoDup_cons. split; [|auto]. intros Hin. now apply keys_delete in Hin.
Qed.

End JsMapFacts.

Section Properties.

Context `{Engine number}.
Implicit Types (rooms : registry) (req : @raw_body number) (e : @event number).

(** ** Session tables *)

Lemma sessions_insert roomId room rooms :
  sessions roomId (<[roomId := room]> rooms) = clients room.
Proof. unfold sessions. now rewrite lookup_insert_eq. Qed.

Lemma sessions_insert_ne roomId roomId' room rooms :
  roomId <> roomId' ->
  sessions roomId' (<[roomId := room]> rooms) = sessions roomId' rooms.
Proof. intros Hne. unfold sessions. now rewrite lookup_insert_ne. Qed.

Lemma sessions_delete roomId rooms : sessions roomId (delete roomId rooms) = [].
Proof. unfold sessions. now rewrite lookup_delete_eq. Qed.

(** [getRoom] leaves the session tables as they are. *)
Lemma getRoom_sessions roomId rooms :
  clients (getRoom roomId rooms).2 = sessions roomId rooms
  /\ forall r, sessions r (getRoom roomId rooms).1 = sessions r rooms.
Proof.
  unfold getRoom, sessions.
  destruct (rooms !! roomId) as [room|] eqn:Hroom; simpl; [now split|].
  split; [reflexivity|]. intros r.
  destruct (decide (roomId = r)) as [<-|Hne].
  - now rewrite lookup_insert_eq, Hroom.
  - now rewrite lookup_insert_ne.
Qed.

(** What the registration does to the registry and what it answers. *)
Lemma register_and_respond_spec roomId userName clientId rooms :
  let rooms' := (register_and_respond roomId userName clientId rooms).1 in
  sessions roomId rooms'
    = JsMap.set clientId (Client userName None) (sessions roomId rooms)
  /\ (forall r, r <> roomId -> rooms' !! r = rooms !! r)
  /\ (register_and_respond roomId userName clientId rooms).2
     = Respond 200 (Some (JSON_stringify
         (join_response clientId roomId (List.map peer_json (sessions roomId rooms)))))
       :: broadcast roomId clientId (lit "peer-joined")
            (peer_joined_payload clientId userName) rooms'.
Proof.
  unfold register_and_respond.
  destruct (getRoom_sessions roomId rooms) as [Hc Hs].
  assert (Hl : forall r, r <> roomId -> (getRoom roomId rooms).1 !! r = rooms !! r).
  { intros r Hr. unfold getRoom. destruct (rooms !! roomId); simpl; [reflexivity|].
    now rewrite lookup_insert_ne. }
  destruct (getRoom roomId rooms) as [rooms1 room]; simpl in *.
  rewrite sessions_insert; simpl. rewrite Hc.
  split; [reflexivity|]. split; [|reflexivity].
  intros r Hr. rewrite lookup_insert_ne by congruence. now apply Hl.
Qed.

(** A Join through [api/join.js] runs the registration and does not throw. *)
Lemma handler_joins req_body parsed id roomId userName clientId rooms :
  joins (ApiJoin (lit "POST") req_body parsed id) roomId userName clientId ->
  handler (lit "POST") req_body parsed id rooms
  = Some (register_and_respond roomId userName clientId rooms).
Proof.
  intros (Hr & Hn & -> & _ & Hroom & Hname).
  assert (Hne : js_empty roomId || js_empty userName = false).
  { destruct roomId, userName; simpl; congruence. }
  unfold handler. rewrite bool_decide_eq_true_2 by reflexivity. simpl.
  destruct (normalizeBody req_body parsed); simpl in *;
    try (rewrite Hroom, Hname, Hne; reflexivity);
    unfold roomId_of in Hroom; simpl in Hroom; congruence.
Qed.

(** A Join runs the registration. *)
Lemma step_joins e roomId userName clientId rooms :
  joins e roomId userName clientId ->
  step e rooms = register_and_respond roomId userName clientId rooms.
Proof.
  intros (Hr & Hn & He).
  assert (Hne : js_empty roomId || js_empty userName = false).
  { destruct roomId, userName; simpl; congruence. }
  destruct e as [req id|method req_body parsed id| | | |]; try contradiction; simpl.
  - destruct He as (-> & Hroom & Hname). unfold handleJoin.
    unfold request_field in Hroom, Hname.
    destruct (parseBody req) as [body|].
    + destruct body; simpl in *;
        try (rewrite Hroom, Hname, Hne; reflexivity);
        unfold roomId_of in Hroom; simpl in Hroom; congruence.
    + unfold roomId_of in Hroom. simpl in Hroom. congruence.
  - destruct He as (-> & -> & Hroom & Hname).
    now rewrite (handler_joins req_body parsed clientId roomId userName clientId).
Qed.

(** ** Signal *)

Lemma handleSignal_fields req room from target data rooms :
  signal_request req room from target data ->
  handleSignal req rooms = signal_outcome room from target data rooms.
Proof.
  unfold signal_request, request_field, handleSignal, signal_outcome.
  intros (Hroom & Hfrom & Htarget & Hdata & Tr & Tf & Tt & Td).
  destruct (parseBody req) as [body|]; [|discriminate].
  destruct body; try discriminate. simpl destructurable. cbn iota. simpl negb.
  cbv zeta. cbn [get_prop] in *. rewrite Hroom, Hfrom, Htarget, Hdata, Tr, Tf, Tt, Td.
  simpl.
  destruct (js_String room) as [roomKey|]; [|reflexivity].
  destruct (rooms !! roomKey) as [roomData|]; [|reflexivity].
  destruct (js_String target) as [targetKey|]; [|reflexivity].
  destruct (JsMap.get targetKey (clients roomData)) as [recipient|]; [|reflexivity].
  simpl. destruct (res recipient); reflexivity.
Qed.

(** A falsy field, whichever it is, ends the request with a 400. *)
Lemma handleSignal_falsy_field req rooms :
  truthy (request_field req (lit "room")) = false
  \/ truthy (request_field req (lit "from")) = false
  \/ truthy (request_field req (lit "target")) = false
  \/ truthy (request_field req (lit "data")) = false ->
  exists msg, handleSignal req rooms = (rooms, [error_response 400 msg]).
Proof.
  unfold request_field, handleSignal. intros Hf.
  destruct (parseBody req) as [body|]; [|eexists; reflexivity].
  destruct (destructurable body); simpl; [|eexists; reflexivity].
  destruct (truthy (get_prop body (lit "room"))); simpl; [|eexists; reflexivity].
  destruct (truthy (get_prop body (lit "from"))); simpl; [|eexists; reflexivity].
  destruct (truthy (get_prop body (lit "target"))); simpl; [|eexists; reflexivity].
  destruct (truthy (get_prop body (lit "data"))); simpl; [|eexists; reflexivity].
  exfalso. destruct Hf as [Hf|[Hf|[Hf|Hf]]]; discriminate.
Qed.

Lemma absent_or_empty_falsy (v : option (json number)) :
  absent_or_empty v -> truthy v = false.
Proof. now intros [->|[->| ->]]. Qed.

(** C7.  A Signal request in which one of the fields [room], [from], [target]
    and [data] is absent, [null] or the empty string is answered with status
    400; the registry is left as it was and nothing is written on any stream:
    the response is the only effect. *)
Theorem signal_missing_field_is_invalid_request req rooms :
  absent_or_empty (request_field req (lit "room"))
  \/ absent_or_empty (request_field req (lit "from"))
  \/ absent_or_empty (request_field req (lit "target"))
  \/ absent_or_empty (request_field req (lit "data")) ->
  exists msg : string,
    handleSignal req rooms
    = (rooms, [ Respond 400 (Some (JSON_stringify
                  (JObj [(lit "error", JStr (lit msg))]))) ]).
Proof.
  intros Hf. apply handleSignal_falsy_field.
  destruct Hf as [Hf|[Hf|[Hf|Hf]]]; apply absent_or_empty_falsy in Hf; auto.
Qed.

(** C1, as the code has it.  A Signal request with four truthy fields, to a
    room of the registry and a target that is not a key of its session table,
    is answered with 409 Recipient unavailable, the answer it also gets when
    the target is a session without a stream. *)
Theorem signal_unknown_target_is_unavailable req room from target data rooms
    roomKey targetKey roomData :
  signal_request req room from target data ->
  js_String room = Some roomKey -> js_String target = Some targetKey ->
  rooms !! roomKey = Some roomData ->
  JsMap.get targetKey (clients roomData) = None
  \/ (exists recipient, JsMap.get targetKey (clients roomData) = Some recipient
                        /\ res recipient = None) ->
  handleSignal req rooms = (rooms, [error_response 409 "Recipient unavailable"])
  /\ statuses (handleSignal req rooms).2 = [409%nat].
Proof.
  intros Hreq Hr Ht Hroom Hget.
  rewrite (handleSignal_fields _ _ _ _ _ _ Hreq). unfold signal_outcome.
  rewrite Hr, Hroom, Ht.
  destruct Hget as [->|(recipient & -> & Hres)]; simpl; [|rewrite Hres]; now split.
Qed.

(** C2.  A Signal request whose target is a session of the room.  When the
    session has no stream, the one effect is the response 409 with the body
    [{ error: 'Recipient unavailable' }]: nothing is written on any stream.
    When it has the stream [h], the effects are the two writes of one
    [signal] frame on [h], the frame carrying [{ from, data }] with the values
    of the request, and then the response 204 without a body: nothing else is
    written.  The registry is left as it was. *)
Theorem signal_delivery req room from target data rooms roomKey targetKey
    roomData recipient :
  signal_request req room from target data ->
  js_String room = Some roomKey -> js_String target = Some targetKey ->
  rooms !! roomKey = Some roomData ->
  JsMap.get targetKey (clients roomData) = Some recipient ->
  handleSignal req rooms =
    (rooms,
     match res recipient with
     | None =>
         [ Respond 409 (Some (JSON_stringify
             (JObj [(lit "error", JStr (lit "Recipient unavailable"))]))) ]
     | Some h =>
         [ Write h (lit "event: signal" ++ NL);
           Write h (lit "data: "
                    ++ JSON_stringify (JObj [(lit "from", from); (lit "data", data)])
                    ++ NL ++ NL);
           Respond 204 None ]
     end)
  /\ statuses (handleSignal req rooms).2
     = [match res recipient with None => 409%nat | Some _ => 204%nat end]
  /\ stream_effects (handleSignal req rooms).2
     = match res recipient with
       | None => []
       | Some h =>
           [ Write h (lit "event: signal" ++ NL);
             Write h (lit "data: "
                      ++ JSON_stringify (JObj [(lit "from", from); (lit "data", data)])
                      ++ NL ++ NL) ]
       end.
Proof.
  intros Hreq Hr Ht Hroom Hget.
  rewrite (handleSignal_fields _ _ _ _ _ _ Hreq). unfold signal_outcome.
  rewrite Hr, Hroom, Ht, Hget. simpl. now destruct (res recipient).
Qed.

(** C10.  The sender is not looked up.  Two Signal requests with the same
    room, target and data and any two truthy senders get the same status,
    leave the registry as it was, and write on a stream or not alike.  When
    the target has the stream [h], each is delivered: the effects are the two
    writes of one [signal] frame on [h], whose data line carries the sender as
    the request gave it, whether or not it is a client of the room or of any
    room, and then the response 204. *)
Theorem signal_sender_not_validated req1 req2 room from1 from2 target data rooms :
  signal_request req1 room from1 target data ->
  signal_request req2 room from2 target data ->
  statuses (handleSignal req1 rooms).2 = statuses (handleSignal req2 rooms).2
  /\ (handleSignal req1 rooms).1 = rooms /\ (handleSignal req2 rooms).1 = rooms
  /\ (stream_effects (handleSignal req1 rooms).2 = []
      <-> stream_effects (handleSignal req2 rooms).2 = [])
  /\ forall roomKey targetKey roomData recipient h,
       js_String room = Some roomKey -> js_String target = Some targetKey ->
       rooms !! roomKey = Some roomData ->
       JsMap.get targetKey (clients roomData) = Some recipient ->
       res recipient = Some h ->
       (handleSignal req1 rooms).2
       = [ Write h (lit "event: signal" ++ NL);
           Write h (lit "data: "
                    ++ JSON_stringify (JObj [(lit "from", from1); (lit "data", data)])
                    ++ NL ++ NL);
           Respond 204 None ]
       /\ (handleSignal req2 rooms).2
          = [ Write h (lit "event: signal" ++ NL);
              Write h (lit "data: "
                       ++ JSON_stringify (JObj [(lit "from", from2); (lit "data", data)])
                       ++ NL ++ NL);
              Respond 204 None ].
Proof.
  intros H1 H2.
  rewrite (handleSignal_fields _ _ _ _ _ _ H1), (handleSignal_fields _ _ _ _ _ _ H2).
  unfold signal_outcome. split; [|split; [|split; [|split]]].
  - repeat case_match; reflexivity.
  - repeat case_match; reflexivity.
  - repeat case_match; reflexivity.
  - repeat case_match; try tauto. split; discriminate.
  - intros roomKey targetKey roomData recipient h Hr Ht Hroom Hget Hres.
    rewrite Hr, Hroom, Ht, Hget. simpl. rewrite Hres. split; reflexivity.
Qed.

(** ** Join *)

(** A broadcast writes to streams only, and only to streams of sessions of
    the room other than the excluded one. *)
Lemma broadcast_recipients roomId exclude event payload rooms :
  Forall (fun eff => exists h chunk id c,
            eff = Write h chunk /\ In (id, c) (sessions roomId rooms)
            /\ id <> exclude /\ res c = Some h)
         (broadcast roomId exclude event payload rooms).
Proof.
  unfold broadcast, sessions. destruct (rooms !! roomId) as [room|]; [|constructor].
  induction (clients room) as [|[id c] l IH]; simpl; [constructor|].
  apply Forall_app. split.
  - unfold broadcast_entry. simpl. destruct (decide (id = exclude)); [constructor|].
    destruct (res c) as [h|] eqn:Hres; [|constructor].
    unfold sendEvent. repeat constructor; exists h; eexists; exists id, c; auto.
  - eapply Forall_impl; [exact IH|].
    intros eff (h & chunk & id' & c' & ? & ? & ? & ?). exists h, chunk, id', c'. auto.
Qed.

Lemma broadcast_statuses roomId exclude event payload rooms :
  statuses (broadcast roomId exclude event payload rooms) = [].
Proof.
  pose proof (broadcast_recipients roomId exclude event payload rooms) as Hall.
  induction Hall as [|eff l (h & chunk & _ & _ & -> & _) _ IH]; [reflexivity|exact IH].
Qed.

Lemma broadcast_stream_effects roomId exclude event payload rooms :
  stream_effects (broadcast roomId exclude event payload rooms)
  = broadcast roomId exclude event payload rooms.
Proof.
  pose proof (broadcast_recipients roomId exclude event payload rooms) as Hall.
  induction Hall as [|eff l (h & chunk & _ & _ & -> & _) _ IH]; [reflexivity|].
  simpl. now rewrite IH.
Qed.

Lemma in_set_other {V} (k k' : jsstring) (v v' : V) m :
  In (k', v') (JsMap.set k v m) -> k' <> k -> In (k', v') m.
Proof.
  induction m as [|[k0 v0] m IH]; simpl.
  - intros [Heq|[]] Hne. congruence.
  - destruct (decide (k0 = k)) as [->|Hk]; simpl.
    + intros [Heq|Hin] Hne; [congruence|now right].
    + intros [Heq|Hin] Hne; [now left|right; now apply IH].
Qed.

Lemma in_set_new {V} (k : jsstring) (v : V) m : In (k, v) (JsMap.set k v m).
Proof.
  induction m as [|[k0 v0] m IH]; simpl; [now left|].
  destruct (decide (k0 = k)); [now left|now right].
Qed.

Lemma in_set_keep {V} (k k' : jsstring) (v v' : V) m :
  In (k', v') m -> k' <> k -> In (k', v') (JsMap.set k v m).
Proof.
  induction m as [|[k0 v0] m IH]; simpl; [contradiction|].
  destruct (decide (k0 = k)) as [->|Hk]; simpl.
  - intros [Heq|Hin] Hne; [congruence|now right].
  - intros [Heq|Hin] Hne; [now left|right; now apply IH].
Qed.

(** What [delete] leaves: the entries under the other keys. *)
Lemma in_delete_iff {V} (k k' : jsstring) (v' : V) m :
  In (k', v') (JsMap.delete k m) <-> In (k', v') m /\ k' <> k.
Proof.
  induction m as [|[k0 v0] m IH]; simpl; [tauto|].
  destruct (decide (k0 = k)) as [->|Hk]; simpl.
  - rewrite IH. split; [tauto|]. intros [[Heq|Hin] Hne]; [congruence|tauto].
  - rewrite IH. split; [|tauto]. intros [Heq|[Hin Hne]]; [|tauto].
    split; [now left|congruence].
Qed.

Lemma delete_nonempty {V} (k : jsstring) (m : list (jsstring * V)) :
  JsMap.delete k m <> [] <-> exists k' v', k' <> k /\ In (k', v') m.
Proof.
  split.
  - destruct (JsMap.delete k m) as [|[k' v'] l] eqn:Hdel; [congruence|]. intros _.
    exists k', v'. assert (Hin : In (k', v') (JsMap.delete k m)) by (rewrite Hdel; now left).
    apply in_delete_iff in Hin. tauto.
  - intros (k' & v' & Hne & Hin) Hdel.
    assert (Hin' : In (k', v') (JsMap.delete k m)) by (apply in_delete_iff; tauto).
    now rewrite Hdel in Hin'.
Qed.

Lemma stream_effects_app out1 out2 :
  stream_effects (out1 ++ out2) = stream_effects out1 ++ stream_effects out2.
Proof. apply List.filter_app. Qed.

Lemma statuses_app out1 out2 : statuses (out1 ++ out2) = statuses out1 ++ statuses out2.
Proof. apply List.flat_map_app. Qed.

(** C6.  The effects of a Join start with its response; what follows is the
    [peer-joined] broadcast, made of writes on streams of sessions that were
    in the room before the Join and whose identifier is not the new one. *)
Theorem join_response_precedes_broadcast e roomId userName clientId rooms :
  joins e roomId userName clientId ->
  exists body notifications,
    (step e rooms).2 = Respond 200 (Some body) :: notifications
    /\ notifications = broadcast roomId clientId (lit "peer-joined")
                         (peer_joined_payload clientId userName) (step e rooms).1
    /\ Forall (fun eff => exists h chunk id c,
                 eff = Write h chunk /\ In (id, c) (sessions roomId rooms)
                 /\ id <> clientId /\ res c = Some h) notifications.
Proof.
  intros Hj. rewrite (step_joins _ _ _ _ rooms Hj).
  destruct (register_and_respond_spec roomId userName clientId rooms) as (Hs & _ & Hout).
  rewrite Hout. eexists _, _. split; [reflexivity|]. split; [reflexivity|].
  eapply Forall_impl; [apply broadcast_recipients|].
  intros eff (h & chunk & id & c & -> & Hin & Hne & Hres). exists h, chunk, id, c.
  repeat split; auto. rewrite Hs in Hin. now apply in_set_other in Hin.
Qed.

Lemma run_cons e es rooms :
  run (e :: es) rooms
  = ((run es (step e rooms).1).1, (step e rooms).2 ++ (run es (step e rooms).1).2).
Proof.
  simpl. destruct (step e rooms) as [rooms1 out1]. simpl.
  now destruct (run es rooms1).
Qed.

(** The session table of a room after a sequence of Joins into it. *)
Lemma sessions_after_joins roomId (before : list joiner) : forall rooms,
  Forall (fun p => joins (jevent p) roomId (jname p) (jid p)) before ->
  NoDup (JsMap.keys (sessions roomId rooms) ++ List.map jid before) ->
  sessions roomId (run (List.map jevent before) rooms).1
  = sessions roomId rooms ++ List.map (fun p => (jid p, Client (jname p) None)) before.
Proof.
  induction before as [|p before IH]; intros rooms Hall Hnd; simpl List.map.
  - simpl. now rewrite app_nil_r.
  - inversion Hall as [|? ? Hp Hrest]; subst.
    rewrite run_cons. simpl fst. rewrite (step_joins _ _ _ _ rooms Hp).
    destruct (register_and_respond_spec roomId (jname p) (jid p) rooms) as (Hs & _ & _).
    assert (Hfresh : JsMap.get (jid p) (sessions roomId rooms) = None).
    { apply get_None_keys. intros Hin.
      apply NoDup_app in Hnd as (_ & Hdisj & _).
      apply (Hdisj (jid p)); [now apply list_elem_of_In|left]. }
    rewrite (set_fresh _ _ _ Hfresh) in Hs.
    rewrite IH; [|assumption|].
    + rewrite Hs. now rewrite <- app_assoc.
    + rewrite Hs. unfold JsMap.keys. rewrite List.map_app. simpl.
      rewrite <- app_assoc. exact Hnd.
Qed.

(** Each Join of a sequence is answered with 200. *)
Lemma statuses_after_joins roomId (more : list joiner) : forall rooms,
  Forall (fun p => joins (jevent p) roomId (jname p) (jid p)) more ->
  statuses (run (List.map jevent more) rooms).2 = repeat 200%nat (length more).
Proof.
  induction more as [|p more IH]; intros rooms Hall; [reflexivity|].
  inversion Hall as [|? ? Hp Hrest]; subst.
  cbn [List.map]. rewrite run_cons. cbn [snd fst]. rewrite statuses_app.
  rewrite (IH _ Hrest). rewrite (step_joins _ _ _ _ rooms Hp).
  destruct (register_and_respond_spec roomId (jname p) (jid p) rooms) as (_ & _ & ->).
  simpl. now rewrite broadcast_statuses.
Qed.

(** C9.  A Join whose room identifier and name are non-empty once trimmed
    succeeds whatever the registry holds.  Its response is 200, the only
    status, with the body [{ clientId, room, peers }]: the identifier drawn
    for it, the trimmed room identifier, and one [{ clientId, name }] for each
    session the room held, none when the room was not there.  Afterwards the
    room is in the registry, the caller is a session of it under its name and
    with no stream, every session the room held under another identifier is
    still there and no other has appeared, the caller coming last when its
    identifier is new to the room, and every other room is as it was.  Nothing
    bounds the sessions of a room: any number of further Joins into it, under
    identifiers new to it, are answered with 200 and each adds its session to
    the table. *)
Theorem join_always_succeeds e roomId userName clientId rooms :
  joins e roomId userName clientId ->
  let after := (step e rooms).1 in
  let peers :=
    List.map (fun entry : jsstring * client =>
                JObj [(lit "clientId", JStr entry.1); (lit "name", JStr (name entry.2))])
             (sessions roomId rooms) in
  (exists notifications,
     (step e rooms).2
     = Respond 200 (Some (JSON_stringify
         (JObj [(lit "clientId", JStr clientId); (lit "room", JStr roomId);
                (lit "peers", JArr peers)])))
       :: notifications)
  /\ statuses (step e rooms).2 = [200%nat]
  /\ is_Some (after !! roomId)
  /\ JsMap.get clientId (sessions roomId after) = Some (Client userName None)
  /\ (forall id c, id <> clientId ->
        In (id, c) (sessions roomId after) <-> In (id, c) (sessions roomId rooms))
  /\ (~ In clientId (JsMap.keys (sessions roomId rooms)) ->
      sessions roomId after = sessions roomId rooms ++ [(clientId, Client userName None)])
  /\ (forall other, other <> roomId -> after !! other = rooms !! other)
  /\ (forall more : list joiner,
        Forall (fun p => joins (jevent p) roomId (jname p) (jid p)) more ->
        NoDup (JsMap.keys (sessions roomId after) ++ List.map jid more) ->
        statuses (run (List.map jevent more) after).2 = repeat 200%nat (length more)
        /\ sessions roomId (run (List.map jevent more) after).1
           = sessions roomId after
             ++ List.map (fun p => (jid p, Client (jname p) None)) more).
Proof.
  intros Hj after peers. subst after peers. rewrite (step_joins _ _ _ _ rooms Hj).
  destruct (register_and_respond_spec roomId userName clientId rooms) as (Hs & Hother & Hout).
  rewrite Hout, Hs.
  split; [eexists; reflexivity|].
  split; [simpl; now rewrite broadcast_statuses|].
  split.
  { pose proof (set_nonempty clientId (Client userName None) (sessions roomId rooms)) as Hne.
    rewrite <- Hs in Hne. unfold sessions in Hne.
    destruct ((register_and_respond roomId userName clientId rooms).1 !! roomId);
      [eauto|contradiction]. }
  split; [apply get_set_eq|].
  split.
  { intros id c Hne. split; [intros Hin; now apply in_set_other in Hin|].
    intros Hin. now apply in_set_keep. }
  split; [intros Hfresh; apply set_fresh; now apply get_None_keys|].
  split; [exact Hother|].
  intros more Hall Hnd. split; [now apply statuses_after_joins with roomId|].
  rewrite <- Hs. apply sessions_after_joins; [assumption|]. now rewrite Hs.
Qed.


(** ** Teardown *)

Lemma removeClient_absent roomId clientId rooms :
  JsMap.get clientId (sessions roomId rooms) = None ->
  removeClient roomId clientId rooms = (rooms, []).
Proof.
  unfold sessions, removeClient. destruct (rooms !! roomId) as [room|]; [|reflexivity].
  now intros ->.
Qed.

Lemma onClose_absent roomId clientId rooms :
  JsMap.get clientId (sessions roomId rooms) = None ->
  onClose roomId clientId rooms = (rooms, []).
Proof.
  unfold sessions, onClose. destruct (rooms !! roomId) as [room|]; [|reflexivity].
  now intros ->.
Qed.

Lemma removeClient_present roomId clientId rooms room c :
  rooms !! roomId = Some room -> JsMap.get clientId (clients room) = Some c ->
  let rooms' := registry_without roomId clientId room rooms in
  (removeClient roomId clientId rooms).1 = rooms'
  /\ (onClose roomId clientId rooms).1 = rooms'
  /\ (exists ended notifications,
        (ended = [] \/ exists h, ended = [End h])
        /\ (notifications = []
            \/ notifications = broadcast roomId clientId (lit "peer-left")
                                 (peer_left_payload clientId) rooms')
        /\ (removeClient roomId clientId rooms).2 = ended ++ notifications
        /\ (onClose roomId clientId rooms).2 = notifications).
Proof.
  intros Hroom Hget. unfold removeClient, onClose, registry_without.
  rewrite Hroom, Hget. unfold JsMap.size.
  destruct (JsMap.delete clientId (clients room)) as [|entry remaining]; simpl.
  - repeat split. exists (match res c with Some h => [End h] | None => [] end), [].
    rewrite app_nil_r. repeat split; auto. destruct (res c); eauto.
  - repeat split. eexists (match res c with Some h => [End h] | None => [] end), _.
    repeat split; [destruct (res c); eauto|right; reflexivity].
Qed.

Lemma registry_without_gone roomId clientId room rooms :
  JsMap.get clientId (sessions roomId (registry_without roomId clientId room rooms)) = None.
Proof.
  unfold registry_without.
  destruct (JsMap.delete clientId (clients room)) as [|entry remaining] eqn:Hdel.
  - now rewrite sessions_delete.
  - rewrite sessions_insert. cbn [clients]. rewrite <- Hdel. apply get_delete_eq.
Qed.

(** The room of a session after its removal: the others stay, and the room
    stays with them. *)
Lemma removeClient_room roomId clientId rooms :
  sessions roomId (removeClient roomId clientId rooms).1
  = JsMap.delete clientId (sessions roomId rooms)
  /\ (JsMap.get clientId (sessions roomId rooms) <> None ->
      (is_Some ((removeClient roomId clientId rooms).1 !! roomId)
       <-> JsMap.delete clientId (sessions roomId rooms) <> [])).
Proof.
  destruct (JsMap.get clientId (sessions roomId rooms)) as [c|] eqn:Hget.
  - unfold sessions in Hget |- *. destruct (rooms !! roomId) as [room|] eqn:Hroom;
      [|discriminate].
    destruct (removeClient_present _ _ _ _ _ Hroom Hget) as (-> & _).
    unfold registry_without.
    destruct (JsMap.delete clientId (clients room)) as [|entry remaining] eqn:Hdel.
    + rewrite lookup_delete_eq. split; [reflexivity|]. intros _.
      split; [now intros [? ?]|congruence].
    + rewrite lookup_insert_eq. split; [reflexivity|]. intros _. split; eauto.
  - rewrite (removeClient_absent _ _ _ Hget). split; [|congruence].
    now rewrite delete_absent.
Qed.

(** A Leave request with truthy fields runs [removeClient] and answers 204. *)
Lemma handleLeave_request req roomId clientId rooms :
  leave_request req roomId clientId ->
  handleLeave req rooms
  = ((removeClient roomId clientId rooms).1,
     (removeClient roomId clientId rooms).2 ++ [Respond 204 None]).
Proof.
  unfold leave_request, request_field, handleLeave.
  intros (room & client & Hroom & Hclient & Tr & Tc & Sr & Sc).
  destruct (parseBody req) as [body|]; [|discriminate].
  destruct body; try discriminate. simpl destructurable. cbn iota. simpl negb.
  cbv zeta. cbn [get_prop] in *. rewrite Hroom, Hclient, Tr, Tc. simpl. rewrite Sr, Sc.
  now destruct (removeClient roomId clientId rooms).
Qed.

(** What a teardown trigger does, whichever it is. *)
Lemma step_tears_down e roomId clientId rooms :
  tears_down e roomId clientId ->
  (step e rooms).1 = (removeClient roomId clientId rooms).1
  /\ (JsMap.get clientId (sessions roomId rooms) = None ->
      stream_effects (step e rooms).2 = [])
  /\ JsMap.get clientId (sessions roomId (step e rooms).1) = None
  /\ (exists ended notifications,
        (ended = [] \/ exists h, ended = [End h])
        /\ (notifications = []
            \/ notifications = broadcast roomId clientId (lit "peer-left")
                                 (peer_left_payload clientId) (step e rooms).1)
        /\ stream_effects (step e rooms).2 = ended ++ notifications)
  /\ Forall (fun status => status = 204%nat) (statuses (step e rooms).2).
Proof.
  intros Ht.
  assert (Hcases :
    (JsMap.get clientId (sessions roomId rooms) = None
     /\ removeClient roomId clientId rooms = (rooms, [])
     /\ onClose roomId clientId rooms = (rooms, []))
    \/ exists room c, rooms !! roomId = Some room
                     /\ JsMap.get clientId (clients room) = Some c).
  { destruct (JsMap.get clientId (sessions roomId rooms)) as [c|] eqn:Hget.
    - right. unfold sessions in Hget. destruct (rooms !! roomId) as [room|]; [|discriminate].
      now exists room, c.
    - left. auto using removeClient_absent, onClose_absent. }
  destruct e as [| | |req| |room client]; try contradiction; simpl in Ht |- *.
  - rewrite (handleLeave_request _ _ _ rooms Ht). simpl.
    rewrite stream_effects_app, statuses_app. simpl. rewrite app_nil_r.
    destruct Hcases as [(Hnone & -> & _)|(room & c & Hroom & Hget)].
    + simpl. repeat split; auto. eexists [], []. repeat split; auto.
    + destruct (removeClient_present _ _ _ _ _ Hroom Hget)
        as (Hr & _ & ended & notifications & Hended & Hnotif & Hout & _).
      rewrite Hr, Hout. split; [reflexivity|]. split.
      { intros Hnone. unfold sessions in Hnone. rewrite Hroom in Hnone. congruence. }
      split; [apply registry_without_gone|]. split.
      * exists ended, notifications. repeat split; auto.
        rewrite stream_effects_app.
        destruct Hended as [->|[h ->]], Hnotif as [->| ->]; simpl;
          now rewrite ?broadcast_stream_effects.
      * rewrite statuses_app.
        destruct Hended as [->|[h ->]], Hnotif as [->| ->]; simpl;
          rewrite ?broadcast_statuses; repeat constructor.
  - destruct Ht as [-> ->].
    destruct Hcases as [(Hnone & -> & ->)|(room & c & Hroom & Hget)].
    + simpl. repeat split; auto. eexists [], []. repeat split; auto.
    + destruct (removeClient_present _ _ _ _ _ Hroom Hget)
        as (Hr & Hc & ended & notifications & _ & Hnotif & _ & Hout).
      rewrite Hr, Hc, Hout. split; [reflexivity|]. split.
      { intros Hnone. unfold sessions in Hnone. rewrite Hroom in Hnone. congruence. }
      split; [apply registry_without_gone|]. split.
      * exists [], notifications. repeat split; auto.
        destruct Hnotif as [->| ->]; simpl; now rewrite ?broadcast_stream_effects.
      * destruct Hnotif as [->| ->]; simpl; rewrite ?broadcast_statuses; constructor.
Qed.

(** Triggers for a session that is gone change nothing and write nothing. *)
Lemma run_tears_down_absent es roomId clientId : forall rooms,
  Forall (fun e => tears_down e roomId clientId) es ->
  JsMap.get clientId (sessions roomId rooms) = None ->
  (run es rooms).1 = rooms /\ stream_effects (run es rooms).2 = []
  /\ Forall (fun status => status = 204%nat) (statuses (run es rooms).2).
Proof.
  induction es as [|e es IH]; intros rooms Hall Hnone; [repeat split; constructor|].
  inversion Hall as [|? ? He Hes]; subst. rewrite run_cons. simpl.
  destruct (step_tears_down e roomId clientId rooms He) as (Hr & Hq & _ & _ & Hst).
  rewrite (removeClient_absent _ _ _ Hnone) in Hr. simpl in Hr. rewrite Hr.
  destruct (IH rooms Hes Hnone) as (IH1 & IH2 & IH3).
  rewrite stream_effects_app, statuses_app, IH1, IH2, (Hq Hnone).
  repeat split. apply Forall_app. auto.
Qed.

(** C5.  Teardown happens once.  Of any number of triggers for one session
    (Leave requests and stream closes, in any order), the first leaves the
    session out of its room's table and writes on streams at most the end of
    the session's own stream and one [peer-left] broadcast; the others leave
    the registry as the first left it and write nothing.  A trigger for a
    session that is not there, its room being in the registry or not, changes
    nothing and writes nothing.  No trigger is answered with an error: the
    only status is 204. *)
Theorem teardown_is_idempotent e es roomId clientId rooms :
  tears_down e roomId clientId ->
  Forall (fun e' => tears_down e' roomId clientId) es ->
  let after := (step e rooms).1 in
  JsMap.get clientId (sessions roomId after) = None
  /\ (run (e :: es) rooms).1 = after
  /\ stream_effects (run (e :: es) rooms).2 = stream_effects (step e rooms).2
  /\ (exists ended notifications,
        (ended = [] \/ exists h, ended = [End h])
        /\ (notifications = []
            \/ notifications = broadcast roomId clientId (lit "peer-left")
                                 (peer_left_payload clientId) after)
        /\ stream_effects (step e rooms).2 = ended ++ notifications)
  /\ (JsMap.get clientId (sessions roomId rooms) = None ->
      after = rooms /\ stream_effects (step e rooms).2 = [])
  /\ Forall (fun status => status = 204%nat) (statuses (run (e :: es) rooms).2).
Proof.
  intros He Hes after.
  destruct (step_tears_down e roomId clientId rooms He) as (Hr & Hq & Hgone & Hout & Hst).
  destruct (run_tears_down_absent es roomId clientId after Hes Hgone) as (R1 & R2 & R3).
  rewrite run_cons. simpl. rewrite stream_effects_app, statuses_app.
  fold after. rewrite R1, R2, app_nil_r.
  repeat split; auto.
  - unfold after. rewrite Hr. now rewrite removeClient_absent by assumption.
  - apply Forall_app. auto.
Qed.

(** ** The registry invariant *)

Lemma no_empty_room_insert roomId room rooms :
  no_empty_room rooms -> clients room <> [] -> no_empty_room (<[roomId := room]> rooms).
Proof.
  intros Hinv Hne r room'. destruct (decide (roomId = r)) as [<-|Hr].
  - rewrite lookup_insert_eq. now intros [= <-].
  - rewrite lookup_insert_ne by assumption. apply Hinv.
Qed.

Lemma no_empty_room_delete roomId rooms :
  no_empty_room rooms -> no_empty_room (delete roomId rooms).
Proof.
  intros Hinv r room'. destruct (decide (roomId = r)) as [<-|Hr].
  - now rewrite lookup_delete_eq.
  - rewrite lookup_delete_ne by assumption. apply Hinv.
Qed.

Lemma register_and_respond_invariant roomId userName clientId rooms :
  no_empty_room rooms ->
  no_empty_room (register_and_respond roomId userName clientId rooms).1.
Proof.
  intros Hinv. unfold register_and_respond, getRoom.
  destruct (rooms !! roomId) as [room|]; simpl.
  - apply no_empty_room_insert; [assumption|apply set_nonempty].
  - rewrite insert_insert_eq. apply no_empty_room_insert; [assumption|discriminate].
Qed.

Lemma registry_without_invariant roomId clientId room rooms :
  no_empty_room rooms -> no_empty_room (registry_without roomId clientId room rooms).
Proof.
  intros Hinv. unfold registry_without.
  destruct (JsMap.delete clientId (clients room)).
  - now apply no_empty_room_delete.
  - apply no_empty_room_insert; [assumption|discriminate].
Qed.

Lemma removeClient_invariant roomId clientId rooms :
  no_empty_room rooms ->
  no_empty_room (removeClient roomId clientId rooms).1
  /\ no_empty_room (onClose roomId clientId rooms).1.
Proof.
  intros Hinv.
  destruct (rooms !! roomId) as [room|] eqn:Hroom.
  - destruct (JsMap.get clientId (clients room)) as [c|] eqn:Hget.
    + destruct (removeClient_present _ _ _ _ _ Hroom Hget) as (-> & -> & _).
      split; now apply registry_without_invariant.
    + unfold removeClient, onClose. now rewrite Hroom, Hget.
  - unfold removeClient, onClose. now rewrite Hroom.
Qed.

(** [handleSignal] never changes the registry. *)
Lemma handleSignal_registry req rooms : (handleSignal req rooms).1 = rooms.
Proof. unfold handleSignal. repeat case_match; reflexivity. Qed.

Lemma handleJoin_cases req clientId rooms :
  (handleJoin req clientId rooms).1 = rooms
  \/ exists roomId userName,
       handleJoin req clientId rooms = register_and_respond roomId userName clientId rooms.
Proof. unfold handleJoin. repeat case_match; eauto. Qed.

Lemma handler_cases method req_body parsed clientId rooms :
  match handler method req_body parsed clientId rooms with
  | Some r =>
      r.1 = rooms
      \/ exists roomId userName, r = register_and_respond roomId userName clientId rooms
  | None => True
  end.
Proof. unfold handler. repeat case_match; simplify_eq; eauto. Qed.

Lemma handleLeave_cases req rooms :
  (handleLeave req rooms).1 = rooms
  \/ exists roomId clientId, (handleLeave req rooms).1 = (removeClient roomId clientId rooms).1.
Proof.
  unfold handleLeave. repeat case_match; eauto.
  right. eexists _, _. match goal with Hr : removeClient _ _ _ = _ |- _ => now rewrite Hr end.
Qed.

Lemma handleEventStream_invariant roomId clientId h rooms :
  no_empty_room rooms -> no_empty_room (handleEventStream roomId clientId h rooms).1.
Proof.
  intros Hinv. unfold handleEventStream. repeat case_match; try assumption.
  simpl. apply no_empty_room_insert; [assumption|apply set_nonempty].
Qed.

(** Every event keeps the registry free of empty rooms. *)
Lemma step_invariant e rooms : no_empty_room rooms -> no_empty_room (step e rooms).1.
Proof.
  intros Hinv. destruct e as [req id|method req_body parsed id|req|req|r c h|r c]; simpl.
  - destruct (handleJoin_cases req id rooms) as [->|(r & n & ->)];
      [assumption|now apply register_and_respond_invariant].
  - pose proof (handler_cases method req_body parsed id rooms) as Hc.
    destruct (handler method req_body parsed id rooms) as [out|]; [|assumption].
    destruct Hc as [->|(r & n & ->)];
      [assumption|now apply register_and_respond_invariant].
  - now rewrite handleSignal_registry.
  - destruct (handleLeave_cases req rooms) as [->|(r & c & ->)];
      [assumption|now apply removeClient_invariant].
  - now apply handleEventStream_invariant.
  - now apply removeClient_invariant.
Qed.

Lemma run_invariant es : forall rooms,
  no_empty_room rooms -> no_empty_room (run es rooms).1.
Proof.
  induction es as [|e es IH]; intros rooms Hinv; [assumption|].
  rewrite run_cons. simpl. now apply IH, step_invariant.
Qed.

(** The association lists of the model stay [Map]s: every event keeps the
    client identifiers of each room distinct. *)
Lemma unique_sessions_insert roomId room rooms :
  unique_sessions rooms -> NoDup (JsMap.keys (clients room)) ->
  unique_sessions (<[roomId := room]> rooms).
Proof.
  intros Hinv Hnd r room'. destruct (decide (roomId = r)) as [<-|Hr].
  - rewrite lookup_insert_eq. now intros [= <-].
  - rewrite lookup_insert_ne by assumption. apply Hinv.
Qed.

Lemma unique_sessions_delete roomId rooms :
  unique_sessions rooms -> unique_sessions (delete roomId rooms).
Proof.
  intros Hinv r room'. destruct (decide (roomId = r)) as [<-|Hr].
  - now rewrite lookup_delete_eq.
  - rewrite lookup_delete_ne by assumption. apply Hinv.
Qed.

Lemma step_unique_sessions e rooms :
  unique_sessions rooms -> unique_sessions (step e rooms).1.
Proof.
  intros Hinv.
  assert (Hreg : forall roomId userName clientId,
            unique_sessions (register_and_respond roomId userName clientId rooms).1).
  { intros roomId userName clientId. unfold register_and_respond, getRoom.
    destruct (rooms !! roomId) as [room|] eqn:Hroom; simpl.
    - apply unique_sessions_insert; [assumption|].
      apply NoDup_keys_set. now apply (Hinv roomId).
    - rewrite insert_insert_eq. apply unique_sessions_insert; [assumption|].
      apply NoDup_singleton. }
  assert (Hrem : forall roomId clientId,
            unique_sessions (removeClient roomId clientId rooms).1
            /\ unique_sessions (onClose roomId clientId rooms).1).
  { intros roomId clientId.
    destruct (rooms !! roomId) as [room|] eqn:Hroom.
    - destruct (JsMap.get clientId (clients room)) as [c|] eqn:Hget.
      + destruct (removeClient_present _ _ _ _ _ Hroom Hget) as (-> & -> & _).
        assert (Hw : unique_sessions (registry_without roomId clientId room rooms));
          [|now split].
        unfold registry_without.
        destruct (JsMap.delete clientId (clients room)) as [|entry l] eqn:Hdel.
        * now apply unique_sessions_delete.
        * apply unique_sessions_insert; [assumption|]. cbn [clients].
          rewrite <- Hdel. apply NoDup_keys_delete. now apply (Hinv roomId).
      + unfold removeClient, onClose. now rewrite Hroom, Hget.
    - unfold removeClient, onClose. now rewrite Hroom. }
  destruct e as [req id|method req_body parsed id|req|req|r c h|r c]; simpl.
  - destruct (handleJoin_cases req id rooms) as [->|(r & n & ->)]; auto.
  - pose proof (handler_cases method req_body parsed id rooms) as Hc.
    destruct (handler method req_body parsed id rooms) as [out|]; [|assumption].
    destruct Hc as [->|(r & n & ->)]; auto.
  - now rewrite handleSignal_registry.
  - destruct (handleLeave_cases req rooms) as [->|(r & c & ->)];
      [assumption|apply Hrem].
  - unfold handleEventStream. repeat case_match; try assumption. simpl.
    apply unique_sessions_insert; [assumption|].
    apply NoDup_keys_set. eapply Hinv; eassumption.
  - apply Hrem.
Qed.

(** C4.  After any sequence of events on the registry the server starts with
    (Joins, Signals, Leaves, stream opens and stream closes), a room
    identifier is a key of the registry exactly when the session table of the
    room is not empty: no room of the registry is without a session.  A Join
    leaves its room in the registry, and when the room was not there the
    caller is its only session.  A Leave or a stream close of a session of the
    room takes that session out and leaves every other session of the room;
    the room stays in the registry exactly when another session remains, and
    is taken out in the same step when the session was the only one. *)
Theorem room_in_registry_iff_has_sessions (es : list (@event number)) (roomId : jsstring) :
  (is_Some ((run es ∅).1 !! roomId) <-> sessions roomId (run es ∅).1 <> [])
  /\ (forall room, (run es ∅).1 !! roomId = Some room -> clients room <> [])
  /\ (forall rooms e userName clientId,
        joins e roomId userName clientId ->
        is_Some ((step e rooms).1 !! roomId)
        /\ (rooms !! roomId = None ->
            sessions roomId (step e rooms).1 = [(clientId, Client userName None)]))
  /\ (forall rooms e clientId c,
        tears_down e roomId clientId ->
        JsMap.get clientId (sessions roomId rooms) = Some c ->
        (forall id c', In (id, c') (sessions roomId (step e rooms).1)
                       <-> In (id, c') (sessions roomId rooms) /\ id <> clientId)
        /\ (is_Some ((step e rooms).1 !! roomId)
            <-> exists id c', id <> clientId /\ In (id, c') (sessions roomId rooms)))
  /\ (forall rooms e clientId c,
        tears_down e roomId clientId -> sessions roomId rooms = [(clientId, c)] ->
        (step e rooms).1 !! roomId = None).
Proof.
  split; [|split; [|split; [|split]]].
  - assert (Hinv : no_empty_room (run es ∅).1).
    { apply run_invariant. intros r room. now rewrite lookup_empty. }
    unfold sessions. split.
    + intros [room Hroom]. rewrite Hroom. now apply (Hinv roomId).
    + destruct ((run es ∅).1 !! roomId); [eauto|congruence].
  - apply run_invariant. intros r room. now rewrite lookup_empty.
  - intros rooms e userName clientId Hj.
    rewrite (step_joins _ _ _ _ rooms Hj).
    destruct (register_and_respond_spec roomId userName clientId rooms) as (Hs & _).
    split.
    + pose proof (set_nonempty clientId (Client userName None) (sessions roomId rooms))
        as Hne.
      rewrite <- Hs in Hne. unfold sessions in Hne.
      destruct ((register_and_respond roomId userName clientId rooms).1 !! roomId);
        [eauto|contradiction].
    + intros Hnone. rewrite Hs. unfold sessions. now rewrite Hnone.
  - intros rooms e clientId c Ht Hget.
    destruct (step_tears_down e roomId clientId rooms Ht) as (-> & _).
    destruct (removeClient_room roomId clientId rooms) as [Hs Hroom].
    split.
    + intros id c'. rewrite Hs. apply in_delete_iff.
    + rewrite Hroom by congruence. apply delete_nonempty.
  - intros rooms e clientId c Ht Hs.
    destruct (step_tears_down e roomId clientId rooms Ht) as (-> & _).
    unfold sessions in Hs. unfold removeClient.
    destruct (rooms !! roomId) as [room|]; [|discriminate]. rewrite Hs.
    unfold JsMap.get, JsMap.delete. rewrite !decide_True by reflexivity.
    simpl. apply lookup_delete_eq.
Qed.

(** ** Room identifiers *)

(** C8, as the code has it.  Join trims the room identifier before it is
    used as a key of the registry, in both join handlers.  Signal, Leave and
    the opening of a stream use the identifier as it is given: when it is not
    itself a key of the registry, whatever its trimmed form is, Signal and the
    stream answer 404 and Leave changes nothing. *)
Theorem room_id_trimmed_by_join_only :
  (forall req clientId rooms room s userName,
     request_field req (lit "room") = Some room -> truthy (Some room) = true ->
     js_String room = Some s -> trim s <> [] ->
     userName_of (request_field req (lit "name")) = Some userName -> userName <> [] ->
     handleJoin req clientId rooms = register_and_respond (trim s) userName clientId rooms)
  /\ (forall req_body parsed clientId rooms room s userName,
      get_prop (normalizeBody req_body parsed) (lit "room") = Some room ->
      truthy (Some room) = true -> js_String room = Some s -> trim s <> [] ->
      userName_of (get_prop (normalizeBody req_body parsed) (lit "name")) = Some userName ->
      userName <> [] ->
      handler (lit "POST") req_body parsed clientId rooms
      = Some (register_and_respond (trim s) userName clientId rooms))
  /\ (forall req room from target data rooms s,
      signal_request req room from target data -> js_String room = Some s ->
      rooms !! s = None ->
      handleSignal req rooms
      = (rooms, [ Respond 404 (Some (JSON_stringify
                    (JObj [(lit "error", JStr (lit "Room not found"))]))) ]))
  /\ (forall req s clientId rooms,
      leave_request req s clientId -> rooms !! s = None ->
      handleLeave req rooms = (rooms, [Respond 204 None]))
  /\ (forall s clientId h rooms,
      s <> [] -> clientId <> [] -> rooms !! s = None ->
      handleEventStream (Some s) (Some clientId) h rooms
      = (rooms, [Respond 404 (Some (lit "Client not registered in room"))])).
Proof.
  split; [|split; [|split; [|split]]].
  - intros req clientId rooms room s userName Hroom Tr Hs Hne Hname Hn.
    apply (step_joins (Join req clientId)). repeat split; auto.
    unfold roomId_of. now rewrite Hroom, Tr; simpl; rewrite Hs.
  - intros req_body parsed clientId rooms room s userName Hroom Tr Hs Hne Hname Hn.
    assert (Hj : joins (ApiJoin (lit "POST") req_body parsed clientId)
                   (trim s) userName clientId).
    { repeat split; auto. unfold roomId_of. now rewrite Hroom, Tr; simpl; rewrite Hs. }
    exact (handler_joins _ _ _ _ _ _ rooms Hj).
  - intros req room from target data rooms s Hreq Hs Hnone.
    rewrite (handleSignal_fields _ _ _ _ _ _ Hreq). unfold signal_outcome.
    now rewrite Hs, Hnone.
  - intros req s clientId rooms Hreq Hnone.
    rewrite (handleLeave_request _ _ _ _ Hreq).
    rewrite removeClient_absent; [reflexivity|].
    unfold sessions. now rewrite Hnone.
  - intros s clientId h rooms Hs Hc Hnone. unfold handleEventStream.
    destruct s; [contradiction|]. destruct clientId; [contradiction|].
    now rewrite Hnone.
Qed.

End Properties.

(** * More properties of the handlers *)

Arguments slice0 : simpl never.

Section Coverage.

Context `{Engine number}.
Implicit Types (rooms : registry) (req : @raw_body number) (e : @event number).

(** ** Responses *)

Lemma register_and_respond_statuses roomId userName clientId rooms :
  statuses (register_and_respond roomId userName clientId rooms).2 = [200%nat].
Proof.
  destruct (register_and_respond_spec roomId userName clientId rooms) as (_ & _ & ->).
  simpl. now rewrite broadcast_statuses.
Qed.

Lemma removeClient_statuses roomId clientId rooms :
  statuses (removeClient roomId clientId rooms).2 = []
  /\ statuses (onClose roomId clientId rooms).2 = [].
Proof.
  unfold removeClient, onClose. repeat case_match; simpl;
    rewrite ?statuses_app, ?broadcast_statuses; auto.
Qed.

(** Every request to a handler is answered once, with a status of the
    interface: 200 or 400 for Join, 204, 400, 404 or 409 for Signal, 204 or
    400 for Leave; a stream request is answered with 400 or 404, or the stream
    is opened with its first line and no response is ended. *)
Theorem handlers_answer_once req clientId roomId client h rooms :
  (statuses (handleJoin req clientId rooms).2 = [200%nat]
   \/ statuses (handleJoin req clientId rooms).2 = [400%nat])
  /\ (statuses (handleSignal req rooms).2 = [204%nat]
      \/ statuses (handleSignal req rooms).2 = [400%nat]
      \/ statuses (handleSignal req rooms).2 = [404%nat]
      \/ statuses (handleSignal req rooms).2 = [409%nat])
  /\ (statuses (handleLeave req rooms).2 = [204%nat]
      \/ statuses (handleLeave req rooms).2 = [400%nat])
  /\ ((handleEventStream roomId client h rooms).2
        = [Respond 400 (Some (lit "Missing room or clientId"))]
      \/ (handleEventStream roomId client h rooms).2
        = [Respond 404 (Some (lit "Client not registered in room"))]
      \/ (handleEventStream roomId client h rooms).2 = [StreamHead h; Write h NL]).
Proof.
  split; [|split; [|split]].
  - unfold handleJoin. repeat case_match; auto. left. apply register_and_respond_statuses.
  - unfold handleSignal. repeat case_match; auto.
  - unfold handleLeave. repeat case_match; auto. left. simpl.
    rewrite statuses_app.
    match goal with Hr : removeClient ?r ?c rooms = _ |- _ =>
      destruct (removeClient_statuses r c rooms) as [Hs _]; rewrite Hr in Hs end.
    simpl in Hs. now rewrite Hs.
  - unfold handleEventStream. repeat case_match; auto.
Qed.

(** ** Signal *)

(** A Signal never changes the registry, whatever the request, and what it
    writes on streams is nothing, or one [signal] frame on the stream of one
    session of the registry. *)
Theorem signal_reads_only req rooms :
  (handleSignal req rooms).1 = rooms
  /\ (stream_effects (handleSignal req rooms).2 = []
      \/ exists roomKey room target recipient h payload,
           rooms !! roomKey = Some room
           /\ JsMap.get target (clients room) = Some recipient
           /\ res recipient = Some h
           /\ stream_effects (handleSignal req rooms).2
              = sendEvent h (lit "signal") payload).
Proof.
  split; [apply handleSignal_registry|].
  unfold handleSignal. repeat case_match; auto.
  right. eexists _, _, _, _, _, _. repeat split; eauto.
Qed.

(** ** Join *)

(** A Join whose [room] or [name] is missing, falsy or made of whitespace
    only is answered with 400 and registers nobody. *)
Theorem join_blank_field_is_rejected req clientId rooms :
  blank (request_field req (lit "room")) \/ blank (request_field req (lit "name")) ->
  exists msg : string,
    handleJoin req clientId rooms
    = (rooms, [ Respond 400 (Some (JSON_stringify
                  (JObj [(lit "error", JStr (lit msg))]))) ]).
Proof.
  assert (Hroom : forall v, blank v -> roomId_of v = Some []).
  { intros v [Hf|(s & -> & Hs)]; unfold roomId_of; [now rewrite Hf|].
    destruct (truthy (Some (JStr s))); [|reflexivity]. simpl. now rewrite Hs. }
  assert (Hname : forall v, blank v -> userName_of v = Some []).
  { intros v [Hf|(s & -> & Hs)]; unfold userName_of; [now rewrite Hf|].
    destruct (truthy (Some (JStr s))); [|reflexivity]. simpl. now rewrite Hs. }
  unfold request_field, handleJoin. intros Hb.
  destruct (parseBody req) as [body|]; [|eexists; reflexivity].
  destruct (destructurable body); simpl; [|eexists; reflexivity].
  destruct Hb as [Hb|Hb].
  - rewrite (Hroom _ Hb).
    destruct (userName_of (get_prop body (lit "name"))); eexists; reflexivity.
  - rewrite (Hname _ Hb).
    destruct (roomId_of (get_prop body (lit "room"))) as [roomId|];
      [|eexists; reflexivity].
    rewrite orb_true_r. eexists; reflexivity.
Qed.

(** The serverless entry point does what [handleJoin] does on a body that
    is a JSON object, except that where [handleJoin] catches an exception and
    answers 400, [handler] lets it escape. *)
Theorem handler_agrees_with_handleJoin props parsed clientId rooms :
  match handler (lit "POST") (Some (JObj props)) parsed clientId rooms with
  | Some result => handleJoin (Chunks (Some (JObj props))) clientId rooms = result
  | None => handleJoin (Chunks (Some (JObj props))) clientId rooms
            = (rooms, [invalid_json_body])
  end.
Proof.
  unfold handler, handleJoin. rewrite bool_decide_eq_true_2 by reflexivity.
  simpl. repeat case_match; simplify_eq; reflexivity.
Qed.

(** [handler] answers 405 to every method but POST, and takes a body that
    is missing or falsy, or a string that is not JSON, for the empty object:
    the answer is 400.  The registry is left as it was. *)
Theorem handler_rejections method req_body parsed clientId rooms :
  (method <> lit "POST" ->
   handler method req_body parsed clientId rooms = Some (rooms, [Respond 405 None]))
  /\ (method = lit "POST" ->
      truthy req_body = false
      \/ (exists s, req_body = Some (JStr s) /\ parsed = None) ->
      handler method req_body parsed clientId rooms
      = Some (rooms, [ Respond 400 (Some (JSON_stringify
                         (JObj [(lit "error", JStr (lit "Missing room or name"))]))) ])).
Proof.
  split.
  - intros Hm. unfold handler. now rewrite bool_decide_eq_false_2.
  - intros -> Hb. unfold handler. rewrite bool_decide_eq_true_2 by reflexivity.
    assert (Hn : normalizeBody req_body parsed = JObj []).
    { unfold normalizeBody. destruct Hb as [->|(s & -> & ->)]; [reflexivity|].
      now destruct (truthy (Some (JStr s))). }
    simpl. now rewrite Hn.
Qed.

(** ** Leave *)

(** A Leave whose [room] or [clientId] is missing or falsy is answered with
    400; nobody is removed and nothing is written on a stream. *)
Theorem leave_missing_field_is_rejected req rooms :
  truthy (request_field req (lit "room")) = false
  \/ truthy (request_field req (lit "clientId")) = false ->
  exists msg : string,
    handleLeave req rooms
    = (rooms, [ Respond 400 (Some (JSON_stringify
                  (JObj [(lit "error", JStr (lit msg))]))) ]).
Proof.
  unfold request_field, handleLeave. intros Hf.
  destruct (parseBody req) as [body|]; [|eexists; reflexivity].
  destruct (destructurable body); simpl; [|eexists; reflexivity].
  destruct (truthy (get_prop body (lit "room"))); simpl;
    [|eexists; reflexivity].
  destruct (truthy (get_prop body (lit "clientId"))); simpl;
    [|eexists; reflexivity].
  exfalso. destruct Hf; discriminate.
Qed.

(** ** Fan-out *)

Lemma omap_set_excluded {V B} (g : jsstring * V -> option B) k v (m : list (jsstring * V)) :
  omap (fun entry => if decide (entry.1 = k) then None else g entry) (JsMap.set k v m)
  = omap (fun entry => if decide (entry.1 = k) then None else g entry) m.
Proof.
  induction m as [|[k0 v0] m IH]; simpl.
  - now rewrite decide_True.
  - destruct (decide (k0 = k)) as [->|Hne]; simpl.
    + now rewrite !decide_True.
    + rewrite decide_False by assumption.
      destruct (g (k0, v0)); [f_equal|]; exact IH.
Qed.

Lemma omap_delete_excluded {V B} (g : jsstring * V -> option B) k (m : list (jsstring * V)) :
  omap (fun entry => if decide (entry.1 = k) then None else g entry) (JsMap.delete k m)
  = omap (fun entry => if decide (entry.1 = k) then None else g entry) m.
Proof.
  induction m as [|[k0 v0] m IH]; simpl; [reflexivity|].
  destruct (decide (k0 = k)) as [->|Hne]; simpl.
  - exact IH.
  - rewrite decide_False by assumption.
    destruct (g (k0, v0)); [f_equal|]; exact IH.
Qed.

(** A broadcast is one frame for each stream it reaches. *)
Lemma broadcast_fanout roomId exclude event payload rooms :
  broadcast roomId exclude event payload rooms
  = flat_map (fun h => sendEvent h event payload) (attached_peers roomId exclude rooms).
Proof.
  unfold broadcast, attached_peers, sessions.
  destruct (rooms !! roomId) as [room|]; [|reflexivity].
  induction (clients room) as [|[id c] l IH]; simpl; [reflexivity|].
  unfold broadcast_entry at 1. simpl.
  destruct (decide (id = exclude)); [exact IH|].
  destruct (res c); simpl; [|exact IH].
  unfold sendEvent. simpl. do 2 f_equal. exact IH.
Qed.

(** A Join is announced to every session that was in the room with a stream,
    once each and in the order of the session table: after the response come
    the [peer-joined] frames of those streams and nothing else. *)
Theorem join_notifies_every_attached_peer e roomId userName clientId rooms :
  joins e roomId userName clientId ->
  (step e rooms).2
  = Respond 200 (Some (JSON_stringify
      (JObj [(lit "clientId", JStr clientId); (lit "room", JStr roomId);
             (lit "peers",
              JArr (List.map (fun entry : jsstring * client =>
                                JObj [(lit "clientId", JStr entry.1);
                                      (lit "name", JStr (name entry.2))])
                             (sessions roomId rooms)))])))
    :: flat_map (fun h =>
                   [ Write h (lit "event: peer-joined" ++ NL);
                     Write h (lit "data: "
                              ++ JSON_stringify (JObj [(lit "clientId", JStr clientId);
                                                       (lit "name", JStr userName)])
                              ++ NL ++ NL) ])
         (attached_peers roomId clientId rooms).
Proof.
  intros Hj. rewrite (step_joins _ _ _ _ rooms Hj).
  destruct (register_and_respond_spec roomId userName clientId rooms) as (Hs & _ & ->).
  rewrite broadcast_fanout. unfold attached_peers. rewrite Hs.
  now rewrite (omap_set_excluded (fun entry => res entry.2)).
Qed.

Lemma teardown_effects roomId clientId rooms session :
  JsMap.get clientId (sessions roomId rooms) = Some session ->
  (removeClient roomId clientId rooms).2
  = match res session with Some h => [End h] | None => [] end
    ++ flat_map (fun h => sendEvent h (lit "peer-left") (peer_left_payload clientId))
         (attached_peers roomId clientId rooms)
  /\ (onClose roomId clientId rooms).2
     = flat_map (fun h => sendEvent h (lit "peer-left") (peer_left_payload clientId))
         (attached_peers roomId clientId rooms).
Proof.
  intros Hget. unfold attached_peers. unfold sessions in Hget |- *.
  unfold removeClient, onClose.
  destruct (rooms !! roomId) as [room|]; [|discriminate]. rewrite Hget.
  rewrite <- (omap_delete_excluded (fun entry => res entry.2) clientId (clients room)).
  unfold JsMap.size.
  destruct (JsMap.delete clientId (clients room)) as [|entry remaining] eqn:Hdel.
  - simpl. now rewrite app_nil_r.
  - cbn [length]. cbv zeta. cbn [snd]. rewrite broadcast_fanout.
    unfold attached_peers. now rewrite sessions_insert.
Qed.

Lemma onClose_registry roomId clientId rooms :
  (onClose roomId clientId rooms).1 = (removeClient roomId clientId rooms).1.
Proof.
  destruct (JsMap.get clientId (sessions roomId rooms)) as [session|] eqn:Hget.
  - unfold sessions in Hget. destruct (rooms !! roomId) as [room|] eqn:Hroom;
      [|discriminate].
    now destruct (removeClient_present _ _ _ _ _ Hroom Hget) as (-> & -> & _).
  - now rewrite (removeClient_absent _ _ _ Hget), (onClose_absent _ _ _ Hget).
Qed.

(** The teardown of a session is announced to every other session of the
    room with a stream, once each: [removeClient] ends the stream of the
    session, if it has one, and writes the [peer-left] frames; the close
    listener writes the frames only; a Leave request answers 204 after them.
    When the session was the last of its room nobody is left to tell. *)
Theorem teardown_notifies_every_remaining_peer roomId clientId rooms session :
  JsMap.get clientId (sessions roomId rooms) = Some session ->
  let ended := match res session with Some h => [End h] | None => [] end in
  let fanout :=
    flat_map (fun h =>
                [ Write h (lit "event: peer-left" ++ NL);
                  Write h (lit "data: "
                           ++ JSON_stringify (JObj [(lit "clientId", JStr clientId)])
                           ++ NL ++ NL) ])
             (attached_peers roomId clientId rooms) in
  (removeClient roomId clientId rooms).2 = ended ++ fanout
  /\ (onClose roomId clientId rooms).2 = fanout
  /\ forall req, leave_request req roomId clientId ->
       (handleLeave req rooms).2 = ended ++ fanout ++ [Respond 204 None].
Proof.
  intros Hget ended fanout.
  destruct (teardown_effects _ _ _ _ Hget) as [Hr Hc].
  split; [assumption|]. split; [assumption|].
  intros req Hreq. rewrite (handleLeave_request _ _ _ rooms Hreq).
  simpl. rewrite Hr. now rewrite <- app_assoc.
Qed.

(** An explicit removal and a stream close leave the same registry, whatever
    it held; the close listener ends no stream and writes frames only, and
    [removeClient] does what it does after ending at most one stream. *)
Theorem leave_and_close_agree roomId clientId rooms :
  (removeClient roomId clientId rooms).1 = (onClose roomId clientId rooms).1
  /\ Forall (fun eff => exists h chunk, eff = Write h chunk)
            (onClose roomId clientId rooms).2
  /\ exists ended,
       (ended = [] \/ exists h, ended = [End h])
       /\ (removeClient roomId clientId rooms).2
          = ended ++ (onClose roomId clientId rooms).2.
Proof.
  destruct (JsMap.get clientId (sessions roomId rooms)) as [session|] eqn:Hget.
  - destruct (teardown_effects _ _ _ _ Hget) as (Hr & Hc).
    unfold sessions in Hget. destruct (rooms !! roomId) as [room|] eqn:Hroom;
      [|discriminate].
    destruct (removeClient_present _ _ _ _ _ Hroom Hget) as (-> & -> & _).
    split; [reflexivity|]. rewrite Hr, Hc. split.
    + rewrite <- broadcast_fanout. eapply Forall_impl; [apply broadcast_recipients|].
      intros eff (h & chunk & _ & _ & -> & _). eauto.
    + eexists. split; [|reflexivity]. destruct (res session); eauto.
  - rewrite (removeClient_absent _ _ _ Hget), (onClose_absent _ _ _ Hget).
    repeat split; [constructor|]. exists []. auto.
Qed.

(** ** [getRoom] *)

(** [getRoom] gets or creates: afterwards the room it returns is the one the
    registry holds under the identifier; a room that was there is returned as
    it was and the registry is not changed; a room that was not there starts
    without sessions; no other room is touched; and a second call changes
    nothing more. *)
Theorem getRoom_gets_or_creates roomId rooms :
  (getRoom roomId rooms).1 !! roomId = Some (getRoom roomId rooms).2
  /\ (forall room, rooms !! roomId = Some room -> getRoom roomId rooms = (rooms, room))
  /\ (rooms !! roomId = None -> clients (getRoom roomId rooms).2 = [])
  /\ (forall other, other <> roomId -> (getRoom roomId rooms).1 !! other = rooms !! other)
  /\ getRoom roomId (getRoom roomId rooms).1 = getRoom roomId rooms.
Proof.
  unfold getRoom. destruct (rooms !! roomId) as [room|] eqn:Hroom; simpl.
  - rewrite Hroom. repeat split; auto; [now intros room' [= ->]|discriminate].
  - rewrite lookup_insert_eq. repeat split; auto; [discriminate|].
    intros other Hne. now rewrite lookup_insert_ne.
Qed.

(** ** Streams *)

Lemma get_set_ne {V} (k k' : jsstring) (v : V) m :
  k' <> k -> JsMap.get k' (JsMap.set k v m) = JsMap.get k' m.
Proof.
  intros Hne. induction m as [|[k0 v0] m IH]; simpl.
  - now rewrite decide_False by congruence.
  - destruct (decide (k0 = k)) as [->|Hk]; simpl.
    + now rewrite !decide_False by congruence.
    + destruct (decide (k0 = k')); [reflexivity|exact IH].
Qed.

Lemma keys_set_present {V} (k : jsstring) (v v0 : V) m :
  JsMap.get k m = Some v0 -> JsMap.keys (JsMap.set k v m) = JsMap.keys m.
Proof.
  induction m as [|[k0 v1] m IH]; simpl; [discriminate|].
  destruct (decide (k0 = k)) as [->|Hk]; simpl; [reflexivity|].
  intros Hg. now rewrite IH.
Qed.

Lemma get_delete_Some {V} (k k' : jsstring) (v : V) m :
  JsMap.get k' (JsMap.delete k m) = Some v -> JsMap.get k' m = Some v.
Proof.
  destruct (decide (k' = k)) as [->|Hne].
  - now rewrite get_delete_eq.
  - now rewrite get_delete_ne.
Qed.

Lemma handleEventStream_open roomId clientId h rooms session :
  roomId <> [] -> clientId <> [] ->
  JsMap.get clientId (sessions roomId rooms) = Some session ->
  handleEventStream (Some roomId) (Some clientId) h rooms
  = (<[roomId := RoomData (JsMap.set clientId (Client (name session) (Some h))
                             (sessions roomId rooms))]> rooms,
     [StreamHead h; Write h NL]).
Proof.
  intros Hr Hc Hget. unfold handleEventStream, sessions in *.
  destruct roomId; [contradiction|]. destruct clientId; [contradiction|].
  destruct (rooms !! (n :: roomId)) as [room|]; [|discriminate].
  now rewrite Hget.
Qed.

Lemma handleEventStream_cases roomId clientId h rooms :
  (handleEventStream roomId clientId h rooms).1 = rooms
  \/ exists r c session,
       roomId = Some r /\ clientId = Some c /\ r <> [] /\ c <> []
       /\ JsMap.get c (sessions r rooms) = Some session
       /\ handleEventStream roomId clientId h rooms
          = (<[r := RoomData (JsMap.set c (Client (name session) (Some h))
                                (sessions r rooms))]> rooms,
             [StreamHead h; Write h NL]).
Proof.
  destruct roomId as [r|]; [|now left]. destruct clientId as [c|]; [|now left; destruct r].
  destruct (decide (r = [])) as [->|Hr]; [now left|].
  destruct (decide (c = [])) as [->|Hc]; [now left; destruct r|].
  destruct (JsMap.get c (sessions r rooms)) as [session|] eqn:Hget.
  - right. exists r, c, session. repeat split; auto.
    now apply handleEventStream_open.
  - left. unfold handleEventStream, sessions in *.
    destruct r; [contradiction|]. destruct c; [contradiction|].
    destruct (rooms !! (n :: r)); [now rewrite Hget|reflexivity].
Qed.

(** Opening the stream of a session attaches the response to it: the answer
    is the head of the stream and its first line; afterwards the session has
    the new handle and the name it had, in the place it had, and every other
    session and every other room is as it was. *)
Theorem stream_open_attaches roomId clientId h rooms session :
  roomId <> [] -> clientId <> [] ->
  JsMap.get clientId (sessions roomId rooms) = Some session ->
  let rooms' := (handleEventStream (Some roomId) (Some clientId) h rooms).1 in
  (handleEventStream (Some roomId) (Some clientId) h rooms).2 = [StreamHead h; Write h NL]
  /\ JsMap.get clientId (sessions roomId rooms') = Some (Client (name session) (Some h))
  /\ (forall other, other <> clientId ->
        JsMap.get other (sessions roomId rooms') = JsMap.get other (sessions roomId rooms))
  /\ JsMap.keys (sessions roomId rooms') = JsMap.keys (sessions roomId rooms)
  /\ (forall other, other <> roomId -> rooms' !! other = rooms !! other).
Proof.
  intros Hr Hc Hget rooms'. subst rooms'.
  rewrite (handleEventStream_open _ _ h _ _ Hr Hc Hget). cbn [fst snd].
  rewrite sessions_insert. cbn [clients].
  split; [reflexivity|]. split; [apply get_set_eq|].
  split; [intros other Hne; now apply get_set_ne|].
  split; [now apply keys_set_present with session|].
  intros other Hne. now rewrite lookup_insert_ne.
Qed.

(** A stream is not opened, and the registry is not touched, when a
    parameter is missing or empty (400) and when the client is not a session
    of the room, the room being in the registry or not (404). *)
Theorem stream_open_refusals roomId clientId h rooms :
  (roomId = None \/ roomId = Some [] \/ clientId = None \/ clientId = Some [] ->
   handleEventStream roomId clientId h rooms
   = (rooms, [Respond 400 (Some (lit "Missing room or clientId"))]))
  /\ (forall room client,
        roomId = Some room -> clientId = Some client -> room <> [] -> client <> [] ->
        JsMap.get client (sessions room rooms) = None ->
        handleEventStream roomId clientId h rooms
        = (rooms, [Respond 404 (Some (lit "Client not registered in room"))])).
Proof.
  split.
  - unfold handleEventStream.
    intros [->|[->|[->| ->]]]; try reflexivity; destruct roomId as [[|]|]; reflexivity.
  - intros room client -> -> Hr Hc Hget. unfold handleEventStream, sessions in *.
    destruct room; [contradiction|]. destruct client; [contradiction|].
    destruct (rooms !! (n :: room)); [now rewrite Hget|reflexivity].
Qed.

(** ** What the events leave alone *)

Lemma sessions_registry_without roomId clientId room rooms other :
  rooms !! roomId = Some room ->
  sessions other (registry_without roomId clientId room rooms)
  = if decide (other = roomId) then JsMap.delete clientId (clients room)
    else sessions other rooms.
Proof.
  intros Hroom. unfold registry_without.
  destruct (decide (other = roomId)) as [->|Hne].
  - destruct (JsMap.delete clientId (clients room)) eqn:Hdel.
    + apply sessions_delete.
    + now rewrite sessions_insert.
  - unfold sessions. destruct (JsMap.delete clientId (clients room)).
    + now rewrite lookup_delete_ne.
    + now rewrite lookup_insert_ne.
Qed.

(** A removal takes sessions away and changes none. *)
Lemma removeClient_keeps roomId clientId rooms other id c :
  JsMap.get id (sessions other (removeClient roomId clientId rooms).1) = Some c ->
  JsMap.get id (sessions other rooms) = Some c.
Proof.
  destruct (JsMap.get clientId (sessions roomId rooms)) as [session|] eqn:Hget.
  - unfold sessions in Hget. destruct (rooms !! roomId) as [room|] eqn:Hroom;
      [|discriminate].
    destruct (removeClient_present _ _ _ _ _ Hroom Hget) as (-> & _).
    rewrite (sessions_registry_without _ _ _ _ other Hroom).
    destruct (decide (other = roomId)) as [->|Hne]; [|auto].
    unfold sessions. rewrite Hroom. apply get_delete_Some.
  - now rewrite (removeClient_absent _ _ _ Hget).
Qed.

(** Only a Join adds a session, and nothing changes the name of one: after
    any other event, a session of the registry was there before, under the
    same name. *)
Theorem only_join_adds_sessions e rooms :
  match e with Join _ _ | ApiJoin _ _ _ _ => False | _ => True end ->
  forall roomId id c,
    JsMap.get id (sessions roomId (step e rooms).1) = Some c ->
    exists c0, JsMap.get id (sessions roomId rooms) = Some c0 /\ name c0 = name c.
Proof.
  intros He roomId id c.
  destruct e as [| |req|req|r cl h|r cl]; try contradiction; simpl.
  - rewrite handleSignal_registry. eauto.
  - destruct (handleLeave_cases req rooms) as [->|(r & cl & ->)]; [eauto|].
    intros Hg. apply removeClient_keeps in Hg. eauto.
  - destruct (handleEventStream_cases r cl h rooms)
      as [->|(r' & cl' & session & -> & -> & Hr & Hc & Hget & ->)]; [eauto|].
    rename r' into r, cl' into cl. cbn [fst].
    destruct (decide (roomId = r)) as [->|Hne].
    + rewrite sessions_insert. cbn [clients].
      destruct (decide (id = cl)) as [->|Hid].
      * rewrite get_set_eq. intros [= <-]. eauto.
      * rewrite get_set_ne by assumption. eauto.
    + rewrite sessions_insert_ne by congruence. eauto.
  - rewrite onClose_registry.
    intros Hg. apply removeClient_keeps in Hg. eauto.
Qed.

(** A Join, a teardown and a stream open change one room: every other room
    of the registry is as it was. *)
Theorem events_touch_one_room e roomId clientId rooms :
  (exists userName, joins e roomId userName clientId)
  \/ tears_down e roomId clientId
  \/ (exists h, e = EventStream (Some roomId) (Some clientId) h) ->
  forall other, other <> roomId -> (step e rooms).1 !! other = rooms !! other.
Proof.
  intros [(userName & Hj)|[Ht|(h & ->)]] other Hne.
  - rewrite (step_joins _ _ _ _ rooms Hj).
    now apply register_and_respond_spec.
  - destruct (step_tears_down e roomId clientId rooms Ht) as (-> & _).
    unfold removeClient. repeat case_match; simpl; try reflexivity;
      rewrite ?lookup_delete_ne, ?lookup_insert_ne by congruence; reflexivity.
  - cbn [step]. destruct (handleEventStream_cases (Some roomId) (Some clientId) h rooms)
      as [->|(r & c & session & [= <-] & [= <-] & _ & _ & _ & ->)]; [reflexivity|].
    cbn [fst]. now rewrite lookup_insert_ne by congruence.
Qed.

(** ** How the operations compose *)

Lemma get_app_fresh {V} (k : jsstring) (v : V) m :
  JsMap.get k m = None -> JsMap.get k (m ++ [(k, v)]) = Some v.
Proof.
  induction m as [|[k0 v0] m IH]; simpl.
  - now rewrite decide_True.
  - destruct (decide (k0 = k)); [discriminate|exact IH].
Qed.

Lemma set_app_fresh {V} (k : jsstring) (v v0 : V) m :
  JsMap.get k m = None -> JsMap.set k v (m ++ [(k, v0)]) = m ++ [(k, v)].
Proof.
  induction m as [|[k0 v1] m IH]; simpl.
  - now rewrite decide_True.
  - destruct (decide (k0 = k)); [discriminate|]. intros Hg. now rewrite IH.
Qed.

Lemma delete_app_fresh {V} (k : jsstring) (v : V) m :
  JsMap.get k m = None -> JsMap.delete k (m ++ [(k, v)]) = m.
Proof.
  induction m as [|[k0 v0] m IH]; simpl.
  - now rewrite decide_True.
  - destruct (decide (k0 = k)); [discriminate|]. intros Hg. now rewrite IH.
Qed.

Lemma run_app es1 es2 rooms :
  (run (es1 ++ es2) rooms).1 = (run es2 (run es1 rooms).1).1.
Proof.
  revert rooms. induction es1 as [|e es1 IH]; intros rooms; [reflexivity|].
  rewrite <- app_comm_cons, !run_cons. cbn [fst]. apply IH.
Qed.

(** The session of a client that joined last, with or without a stream. *)
Lemma stream_opens_keep_last roomId clientId userName cs (opens : list handle) :
  roomId <> [] -> JsMap.get clientId cs = None ->
  forall (rooms0 rooms : registry) x,
    sessions roomId rooms = cs ++ [(clientId, Client userName x)] ->
    (forall other, other <> roomId -> rooms !! other = rooms0 !! other) ->
    exists y,
      sessions roomId
        (run (List.map (EventStream (number := number) (Some roomId) (Some clientId)) opens)
             rooms).1
      = cs ++ [(clientId, Client userName y)]
      /\ forall other, other <> roomId ->
           (run (List.map (EventStream (number := number) (Some roomId) (Some clientId)) opens)
                rooms).1 !! other = rooms0 !! other.
Proof.
  intros Hr Hfresh rooms0.
  induction opens as [|h opens IH]; intros rooms x Hs Hother; [now exists x|].
  cbn [List.map]. rewrite run_cons. cbn [fst step].
  destruct (handleEventStream_cases (Some roomId) (Some clientId) h rooms)
    as [->|(r & c & session & [= <-] & [= <-] & _ & _ & Hget' & ->)].
  - now apply (IH rooms x).
  - assert (Hget : JsMap.get clientId (sessions roomId rooms) = Some (Client userName x)).
    { rewrite Hs. now apply get_app_fresh. }
    rewrite Hget in Hget'. injection Hget' as <-. cbn [fst name].
    apply (IH _ (Some h)).
    + rewrite sessions_insert. cbn [clients]. rewrite Hs. now apply set_app_fresh.
    + intros other Hne. rewrite lookup_insert_ne by congruence. now apply Hother.
Qed.

(** Joining and leaving is a round trip.  On a registry without empty rooms,
    a Join under an identifier that is not in the room, any number of stream
    opens for it, and then a Leave or a stream close of that session bring
    the registry back to what it was: the other sessions keep their place,
    and a room made for the Join is gone. *)
Theorem join_then_teardown_restores_registry e e' roomId userName clientId
    (opens : list handle) rooms :
  no_empty_room rooms ->
  JsMap.get clientId (sessions roomId rooms) = None ->
  joins e roomId userName clientId ->
  tears_down e' roomId clientId ->
  (run (e :: List.map (EventStream (Some roomId) (Some clientId)) opens ++ [e']) rooms).1
  = rooms.
Proof.
  intros Hinv Hfresh Hj Ht.
  rewrite run_cons. cbn [fst]. rewrite run_app.
  assert (Hr : roomId <> []) by apply Hj.
  destruct (register_and_respond_spec roomId userName clientId rooms) as (Hs & Hother & _).
  rewrite <- (step_joins _ _ _ _ rooms Hj) in Hs, Hother.
  rewrite (set_fresh _ _ _ Hfresh) in Hs.
  destruct (stream_opens_keep_last roomId clientId userName (sessions roomId rooms)
              opens Hr Hfresh rooms _ None Hs Hother) as (y & Hs' & Hother').
  set (rooms2 := (run _ (step e rooms).1).1) in *.
  rewrite run_cons. cbn [fst run].
  destruct (step_tears_down e' roomId clientId rooms2 Ht) as (-> & _).
  unfold sessions at 1 in Hs'. destruct (rooms2 !! roomId) as [room2|] eqn:Hroom2;
    [|now destruct (sessions roomId rooms)].
  assert (Hget : JsMap.get clientId (clients room2) = Some (Client userName y)).
  { rewrite Hs'. now apply get_app_fresh. }
  destruct (removeClient_present _ _ _ _ _ Hroom2 Hget) as (-> & _).
  unfold registry_without. rewrite Hs', (delete_app_fresh _ _ _ Hfresh).
  apply map_eq. intros i. destruct (decide (i = roomId)) as [->|Hne].
  - unfold sessions. destruct (rooms !! roomId) as [[cs]|] eqn:Hroom; cbn [clients].
    + destruct cs as [|entry cs]; [now destruct (Hinv _ _ Hroom)|].
      now rewrite lookup_insert_eq.
    + now rewrite lookup_delete_eq.
  - destruct (sessions roomId rooms);
      rewrite ?lookup_delete_ne, ?lookup_insert_ne by congruence; now apply Hother'.
Qed.

Lemma join_registers e roomId userName clientId rooms :
  joins e roomId userName clientId ->
  JsMap.get clientId (sessions roomId (step e rooms).1) = Some (Client userName None).
Proof.
  intros Hj. rewrite (step_joins _ _ _ _ rooms Hj).
  destruct (register_and_respond_spec roomId userName clientId rooms) as (-> & _).
  apply get_set_eq.
Qed.

Lemma handleEventStream_attached roomId clientId h rooms session :
  roomId <> [] -> clientId <> [] ->
  JsMap.get clientId (sessions roomId rooms) = Some session ->
  JsMap.get clientId
    (sessions roomId (handleEventStream (Some roomId) (Some clientId) h rooms).1)
  = Some (Client (name session) (Some h)).
Proof.
  intros Hr Hc Hget. rewrite (handleEventStream_open _ _ h _ _ Hr Hc Hget).
  cbn [fst]. rewrite sessions_insert. apply get_set_eq.
Qed.

(** After the teardown of a session, a Signal to it is not delivered, and
    the answer tells whether the room went with the session: it is 404 Room
    not found when the room is not in the registry afterwards, which is so
    when the session was the only one of the room and when the room was not
    there, and 409 Recipient unavailable when the room is still there, which
    is so when another session remains.  The response is the only effect. *)
Theorem signal_after_teardown_is_refused e roomId clientId rooms req room from target data :
  tears_down e roomId clientId ->
  signal_request req room from target data ->
  js_String room = Some roomId -> js_String target = Some clientId ->
  let after := (step e rooms).1 in
  handleSignal req after
  = (after,
     [ match after !! roomId with
       | None =>
           Respond 404 (Some (JSON_stringify
             (JObj [(lit "error", JStr (lit "Room not found"))])))
       | Some _ =>
           Respond 409 (Some (JSON_stringify
             (JObj [(lit "error", JStr (lit "Recipient unavailable"))])))
       end ])
  /\ (rooms !! roomId = None -> statuses (handleSignal req after).2 = [404%nat])
  /\ (forall c, sessions roomId rooms = [(clientId, c)] ->
        statuses (handleSignal req after).2 = [404%nat])
  /\ (forall other c', In (other, c') (sessions roomId rooms) -> other <> clientId ->
        statuses (handleSignal req after).2 = [409%nat]).
Proof.
  intros Ht Hreq Hr Hc after.
  destruct (step_tears_down e roomId clientId rooms Ht) as (Hafter & _ & Hgone & _).
  fold after in Hafter, Hgone.
  assert (Hout : handleSignal req after
    = (after,
       [ match after !! roomId with
         | None =>
             Respond 404 (Some (JSON_stringify
               (JObj [(lit "error", JStr (lit "Room not found"))])))
         | Some _ =>
             Respond 409 (Some (JSON_stringify
               (JObj [(lit "error", JStr (lit "Recipient unavailable"))])))
         end ])).
  { rewrite (handleSignal_fields _ _ _ _ _ _ Hreq). unfold signal_outcome.
    rewrite Hr, Hc. unfold sessions in Hgone.
    destruct (after !! roomId); [|reflexivity]. now rewrite Hgone. }
  rewrite Hout. cbn [snd]. split; [reflexivity|].
  destruct (removeClient_room roomId clientId rooms) as [Hs Hroom].
  rewrite <- Hafter in Hs, Hroom.
  split; [|split].
  - intros Hnone. assert (Habs : after !! roomId = None).
    { rewrite Hafter. unfold removeClient. rewrite Hnone. exact Hnone. }
    now rewrite Habs.
  - intros c Hone. destruct (after !! roomId) as [room'|] eqn:Hroom'; [|reflexivity].
    exfalso. assert (Hget : JsMap.get clientId (sessions roomId rooms) <> None).
    { rewrite Hone. simpl. now rewrite decide_True. }
    apply Hroom in Hget. destruct Hget as [Hget _].
    apply Hget; [eauto|]. rewrite Hone. simpl. now rewrite decide_True.
  - intros other c' Hin Hne.
    assert (Hin' : In (other, c') (sessions roomId after)).
    { rewrite Hs. apply in_delete_iff. tauto. }
    unfold sessions in Hin'. now destruct (after !! roomId).
Qed.

(** A client that has joined and has not opened its stream is unavailable:
    a Signal to it is answered with 409 and nothing is written. *)
Theorem signal_before_stream_is_unavailable e roomId userName clientId rooms
    req room from target data :
  joins e roomId userName clientId ->
  signal_request req room from target data ->
  js_String room = Some roomId -> js_String target = Some clientId ->
  handleSignal req (step e rooms).1
  = ((step e rooms).1,
     [ Respond 409 (Some (JSON_stringify
         (JObj [(lit "error", JStr (lit "Recipient unavailable"))]))) ]).
Proof.
  intros Hj Hreq Hr Hc.
  pose proof (join_registers e roomId userName clientId rooms Hj) as Hget.
  rewrite (handleSignal_fields _ _ _ _ _ _ Hreq). unfold signal_outcome.
  rewrite Hr, Hc. unfold sessions in Hget.
  destruct ((step e rooms).1 !! roomId); [|discriminate].
  now rewrite Hget.
Qed.

(** Join, open the stream, receive: once a client has joined and opened its
    stream [h], a Signal to it is written on [h] and answered with 204,
    whatever the registry held before. *)
Theorem signal_after_join_and_open_is_delivered e roomId userName clientId h rooms
    req room from target data :
  joins e roomId userName clientId -> clientId <> [] ->
  signal_request req room from target data ->
  js_String room = Some roomId -> js_String target = Some clientId ->
  let rooms' := (run [e; EventStream (Some roomId) (Some clientId) h] rooms).1 in
  handleSignal req rooms'
  = (rooms',
     [ Write h (lit "event: signal" ++ NL);
       Write h (lit "data: "
                ++ JSON_stringify (JObj [(lit "from", from); (lit "data", data)])
                ++ NL ++ NL);
       Respond 204 None ]).
Proof.
  intros Hj Hc Hreq Hsr Hst rooms'. subst rooms'.
  rewrite !run_cons. cbn [fst run step].
  pose proof (join_registers e roomId userName clientId rooms Hj) as Hget.
  assert (Hr : roomId <> []) by apply Hj.
  pose proof (handleEventStream_attached _ _ h _ _ Hr Hc Hget) as Hget'.
  unfold sessions in Hget'.
  rewrite (handleSignal_fields _ _ _ _ _ _ Hreq). unfold signal_outcome.
  rewrite Hsr, Hst.
  destruct ((handleEventStream (Some roomId) (Some clientId) h (step e rooms).1).1
              !! roomId); [|discriminate].
  now rewrite Hget'.
Qed.

(** The last stream opened for a session is the one it has: after two opens,
    a Signal to the session is written on the second stream only. *)
Theorem last_stream_open_wins roomId clientId h1 h2 rooms session
    req room from target data :
  roomId <> [] -> clientId <> [] ->
  JsMap.get clientId (sessions roomId rooms) = Some session ->
  signal_request req room from target data ->
  js_String room = Some roomId -> js_String target = Some clientId ->
  let rooms' := (run [EventStream (Some roomId) (Some clientId) h1;
                      EventStream (Some roomId) (Some clientId) h2] rooms).1 in
  handleSignal req rooms'
  = (rooms',
     [ Write h2 (lit "event: signal" ++ NL);
       Write h2 (lit "data: "
                 ++ JSON_stringify (JObj [(lit "from", from); (lit "data", data)])
                 ++ NL ++ NL);
       Respond 204 None ]).
Proof.
  intros Hr Hc Hget Hreq Hsr Hst rooms'. subst rooms'.
  rewrite !run_cons. cbn [fst run step].
  pose proof (handleEventStream_attached _ _ h1 _ _ Hr Hc Hget) as Hget1.
  pose proof (handleEventStream_attached _ _ h2 _ _ Hr Hc Hget1) as Hget2.
  unfold sessions in Hget2.
  rewrite (handleSignal_fields _ _ _ _ _ _ Hreq). unfold signal_outcome.
  rewrite Hsr, Hst.
  match goal with |- context [?R !! roomId] => destruct (R !! roomId) end;
    [|discriminate].
  now rewrite Hget2.
Qed.

(** ** What the registry holds *)

Lemma trim_start_cases (s : jsstring) :
  trim_start s = [] \/ exists c t, trim_start s = c :: t /\ is_js_space c = false.
Proof.
  induction s as [|c s IH]; simpl; [now left|].
  destruct (is_js_space c) eqn:Hc; [exact IH|]. right. eauto.
Qed.

Lemma trim_start_snoc (l : jsstring) c :
  is_js_space c = false -> trim_start (l ++ [c]) = trim_start l ++ [c].
Proof.
  intros Hc. induction l as [|d l IH]; simpl; [now rewrite Hc|].
  destruct (is_js_space d); [exact IH|reflexivity].
Qed.

Lemma trim_end_cons c (s : jsstring) :
  is_js_space c = false -> trim_end (c :: s) = c :: trim_end s.
Proof.
  intros Hc. unfold trim_end. simpl. rewrite (trim_start_snoc _ _ Hc).
  now rewrite rev_app_distr.
Qed.

(** What [trim] gives is empty or starts with no whitespace. *)
Lemma trim_cases (s : jsstring) :
  trim s = [] \/ exists c t, trim s = c :: t /\ is_js_space c = false.
Proof.
  unfold trim. destruct (trim_start_cases s) as [->|(c & t & -> & Hc)]; [now left|].
  right. rewrite (trim_end_cons _ _ Hc). eauto.
Qed.

Lemma trim_start_idem (s : jsstring) : trim_start (trim_start s) = trim_start s.
Proof.
  destruct (trim_start_cases s) as [->|(c & t & -> & Hc)]; [reflexivity|].
  simpl. now rewrite Hc.
Qed.

Lemma trim_idem (s : jsstring) : trim (trim s) = trim s.
Proof.
  assert (Hs : trim_start (trim s) = trim s).
  { destruct (trim_cases s) as [->|(c & t & -> & Hc)]; [reflexivity|].
    simpl. now rewrite Hc. }
  unfold trim at 1. rewrite Hs. unfold trim, trim_end.
  now rewrite rev_involutive, trim_start_idem.
Qed.

Lemma roomId_of_tidy (v : option (json number)) roomId :
  roomId_of v = Some roomId -> js_empty roomId = false -> tidy_room_id roomId.
Proof.
  unfold roomId_of. destruct (truthy v).
  - destruct (String_of v) as [s|]; [|discriminate]. simpl. intros [= <-] Hne.
    split; [now destruct (trim s)|apply trim_idem].
  - now intros [= <-].
Qed.

Lemma userName_of_tidy (v : option (json number)) userName :
  userName_of v = Some userName -> js_empty userName = false -> tidy_name userName.
Proof.
  unfold userName_of. destruct (truthy v).
  - destruct (String_of v) as [s|]; [|discriminate]. simpl. intros [= <-] Hne.
    split; [now destruct (slice0 64 (trim s))|]. split; [apply List.firstn_le_length|].
    unfold slice0. destruct (trim_cases s) as [->|(c & t & -> & Hc)];
      [reflexivity|].
    simpl. now rewrite Hc.
  - now intros [= <-].
Qed.

Lemma handleJoin_cases_tidy req clientId rooms :
  (handleJoin req clientId rooms).1 = rooms
  \/ exists roomId userName,
       tidy_room_id roomId /\ tidy_name userName
       /\ handleJoin req clientId rooms
          = register_and_respond roomId userName clientId rooms.
Proof.
  unfold handleJoin. repeat case_match; auto.
  right. eexists _, _. split; [|split; [|reflexivity]].
  - eapply roomId_of_tidy; [eassumption|].
    match goal with Hb : _ || _ = false |- _ => now apply orb_false_elim in Hb end.
  - eapply userName_of_tidy; [eassumption|].
    match goal with Hb : _ || _ = false |- _ => now apply orb_false_elim in Hb end.
Qed.

Lemma handler_cases_tidy method req_body parsed clientId rooms :
  match handler method req_body parsed clientId rooms with
  | Some r =>
      r.1 = rooms
      \/ exists roomId userName,
           tidy_room_id roomId /\ tidy_name userName
           /\ r = register_and_respond roomId userName clientId rooms
  | None => True
  end.
Proof.
  unfold handler. repeat case_match; simplify_eq; auto.
  right. eexists _, _. split; [|split; [|reflexivity]].
  - eapply roomId_of_tidy; [eassumption|].
    match goal with Hb : _ || _ = false |- _ => now apply orb_false_elim in Hb end.
  - eapply userName_of_tidy; [eassumption|].
    match goal with Hb : _ || _ = false |- _ => now apply orb_false_elim in Hb end.
Qed.

Lemma Forall_set {V} (P : jsstring * V -> Prop) k v m :
  Forall P m -> P (k, v) -> Forall P (JsMap.set k v m).
Proof.
  intros Hm Hv. induction Hm as [|[k0 v0] m H0 Hm IH]; simpl.
  - now repeat constructor.
  - destruct (decide (k0 = k)); constructor; auto.
Qed.

Lemma Forall_delete {V} (P : jsstring * V -> Prop) k m :
  Forall P m -> Forall P (JsMap.delete k m).
Proof.
  intros Hm. induction Hm as [|[k0 v0] m H0 Hm IH]; simpl; [constructor|].
  destruct (decide (k0 = k)); [assumption|now constructor].
Qed.

Lemma get_In {V} (k : jsstring) (v : V) m : JsMap.get k m = Some v -> In (k, v) m.
Proof.
  induction m as [|[k0 v0] m IH]; simpl; [discriminate|].
  destruct (decide (k0 = k)) as [->|Hne]; [intros [= ->]; now left|auto].
Qed.

Lemma tidy_registry_insert roomId room rooms :
  tidy_registry rooms -> tidy_room_id roomId ->
  Forall (fun entry => tidy_name (name entry.2)) (clients room) ->
  tidy_registry (<[roomId := room]> rooms).
Proof.
  intros Hinv Hr Hc r room'. destruct (decide (roomId = r)) as [<-|Hne].
  - rewrite lookup_insert_eq. now intros [= <-].
  - rewrite lookup_insert_ne by assumption. apply Hinv.
Qed.

Lemma tidy_registry_delete roomId rooms :
  tidy_registry rooms -> tidy_registry (delete roomId rooms).
Proof.
  intros Hinv r room'. destruct (decide (roomId = r)) as [<-|Hne].
  - now rewrite lookup_delete_eq.
  - rewrite lookup_delete_ne by assumption. apply Hinv.
Qed.

Lemma step_tidy e rooms : tidy_registry rooms -> tidy_registry (step e rooms).1.
Proof.
  intros Hinv.
  assert (Hreg : forall roomId userName clientId,
            tidy_room_id roomId -> tidy_name userName ->
            tidy_registry (register_and_respond roomId userName clientId rooms).1).
  { intros roomId userName clientId Hr Hn. unfold register_and_respond, getRoom.
    destruct (rooms !! roomId) as [room|] eqn:Hroom; cbn [fst clients].
    - apply tidy_registry_insert; [assumption..|]. cbn [clients].
      apply Forall_set; [now apply (Hinv roomId)|assumption].
    - rewrite insert_insert_eq. apply tidy_registry_insert; [assumption..|].
      cbn [clients]. apply Forall_set; [constructor|assumption]. }
  assert (Hrem : forall roomId clientId,
            tidy_registry (removeClient roomId clientId rooms).1).
  { intros roomId clientId.
    destruct (JsMap.get clientId (sessions roomId rooms)) as [session|] eqn:Hget;
      [|now rewrite (removeClient_absent _ _ _ Hget)].
    unfold sessions in Hget. destruct (rooms !! roomId) as [room|] eqn:Hroom;
      [|discriminate].
    destruct (removeClient_present _ _ _ _ _ Hroom Hget) as (-> & _).
    destruct (Hinv _ _ Hroom) as [Hr Hc]. unfold registry_without.
    destruct (JsMap.delete clientId (clients room)) as [|entry l] eqn:Hdel.
    - now apply tidy_registry_delete.
    - apply tidy_registry_insert; [assumption..|]. cbn [clients].
      rewrite <- Hdel. now apply Forall_delete. }
  destruct e as [req id|method req_body parsed id|req|req|r c h|r c]; cbn [step].
  - destruct (handleJoin_cases_tidy req id rooms) as [->|(r & n & Hr & Hn & ->)]; auto.
  - pose proof (handler_cases_tidy method req_body parsed id rooms) as Hc.
    destruct (handler method req_body parsed id rooms) as [out|]; [|assumption].
    destruct Hc as [->|(r & n & Hr & Hn & ->)]; auto.
  - now rewrite handleSignal_registry.
  - destruct (handleLeave_cases req rooms) as [->|(r & c & ->)]; auto.
  - destruct (handleEventStream_cases r c h rooms)
      as [->|(r' & c' & session & -> & -> & Hr & Hc & Hget & ->)]; [assumption|].
    rename r' into r, c' into c. cbn [fst].
    unfold sessions in *. destruct (rooms !! r) as [room|] eqn:Hroom; [|discriminate].
    destruct (Hinv _ _ Hroom) as [Hid Hall].
    apply tidy_registry_insert; [assumption..|]. cbn [clients].
    apply Forall_set; [assumption|]. cbn [snd name].
    apply get_In in Hget. rewrite List.Forall_forall in Hall. exact (Hall _ Hget).
  - rewrite onClose_registry. auto.
Qed.

(** Whatever the requests were, each room identifier of the registry is not
    empty and is trimmed, and each name it stores is not empty, has 64 code
    units at most, and starts with no whitespace. *)
Theorem registry_stays_tidy (es : list (@event number)) : tidy_registry (run es ∅).1.
Proof.
  assert (Hrun : forall rooms, tidy_registry rooms -> tidy_registry (run es rooms).1).
  { induction es as [|e es IH]; intros rooms Hinv; [assumption|].
    rewrite run_cons. cbn [fst]. now apply IH, step_tidy. }
  apply Hrun. intros r room. now rewrite lookup_empty.
Qed.

Lemma in_set {V} (k k' : jsstring) (v v' : V) m :
  In (k', v') (JsMap.set k v m) -> (k', v') = (k, v) \/ In (k', v') m.
Proof.
  induction m as [|[k0 v0] m IH]; simpl.
  - intros [Heq|[]]. now left.
  - destruct (decide (k0 = k)) as [->|Hk]; simpl.
    + intros [Heq|Hin]; auto.
    + intros [Heq|Hin]; auto. destruct (IH Hin); auto.
Qed.

Lemma in_delete {V} (k k' : jsstring) (v' : V) m :
  In (k', v') (JsMap.delete k m) -> In (k', v') m.
Proof.
  induction m as [|[k0 v0] m IH]; simpl; [auto|].
  destruct (decide (k0 = k)); simpl; [auto|]. intros [Heq|Hin]; auto.
Qed.

Lemma step_streams_within known e rooms :
  streams_within known rooms ->
  streams_within (known ++ stream_requests [e]) (step e rooms).1.
Proof.
  intros Hinv.
  assert (Hmono : forall rooms', 
            (forall roomId id c, In (id, c) (sessions roomId rooms') ->
               res c = None \/ In (id, c) (sessions roomId rooms)) ->
            streams_within (known ++ stream_requests [e]) rooms').
  { intros rooms' Hsub roomId id c h Hin Hres.
    destruct (Hsub _ _ _ Hin) as [Hn|Hold]; [congruence|].
    apply in_or_app. left. eauto. }
  assert (Hreg : forall roomId userName clientId,
            streams_within (known ++ stream_requests [e])
              (register_and_respond roomId userName clientId rooms).1).
  { intros roomId userName clientId. apply Hmono. intros r id c Hin.
    destruct (register_and_respond_spec roomId userName clientId rooms) as (Hs & Ho & _).
    destruct (decide (r = roomId)) as [->|Hne].
    - rewrite Hs in Hin. apply in_set in Hin as [[= -> ->]|Hin]; auto.
    - right. unfold sessions in *. now rewrite <- (Ho r Hne). }
  assert (Hrem : forall roomId clientId,
            streams_within (known ++ stream_requests [e])
              (removeClient roomId clientId rooms).1).
  { intros roomId clientId. apply Hmono. intros r id c Hin. right.
    destruct (JsMap.get clientId (sessions roomId rooms)) as [session|] eqn:Hget;
      [|now rewrite (removeClient_absent _ _ _ Hget) in Hin].
    unfold sessions in Hget. destruct (rooms !! roomId) as [room|] eqn:Hroom;
      [|discriminate].
    destruct (removeClient_present _ _ _ _ _ Hroom Hget) as (Heq & _).
    rewrite Heq, (sessions_registry_without _ _ _ _ r Hroom) in Hin.
    destruct (decide (r = roomId)) as [->|Hne]; [|assumption].
    unfold sessions. rewrite Hroom. now apply in_delete in Hin. }
  destruct e as [req id|method req_body parsed id|req|req|r c h|r c]; cbn [step].
  - destruct (handleJoin_cases req id rooms) as [->|(r & n & ->)]; auto.
  - pose proof (handler_cases method req_body parsed id rooms) as Hc.
    destruct (handler method req_body parsed id rooms) as [out|]; [|auto].
    destruct Hc as [->|(r & n & ->)]; auto.
  - rewrite handleSignal_registry. auto.
  - destruct (handleLeave_cases req rooms) as [->|(r & c & ->)]; auto.
  - destruct (handleEventStream_cases r c h rooms)
      as [->|(r0 & c0 & session & -> & -> & Hr & Hc & Hget & ->)]; [auto|].
    rename r0 into r, c0 into c. cbn [fst].
    intros r' id c' h' Hin Hres. apply in_or_app.
    destruct (decide (r' = r)) as [->|Hne].
    + rewrite sessions_insert in Hin. cbn [clients] in Hin.
      apply in_set in Hin as [[= -> ->]|Hin].
      * right. simpl in Hres |- *. left. congruence.
      * left. eauto.
    + rewrite sessions_insert_ne in Hin by congruence. left. eauto.
  - rewrite onClose_registry. auto.
Qed.

(** A session gets a stream from a stream request only: whatever the events
    were, the handle of every session of the registry is the response object
    of one of the stream requests among them. *)
Theorem streams_come_from_stream_requests (es : list (@event number)) roomId id c h :
  In (id, c) (sessions roomId (run es ∅).1) -> res c = Some h ->
  In h (stream_requests es).
Proof.
  assert (Hrun : forall known rooms,
            streams_within known rooms ->
            streams_within (known ++ stream_requests es) (run es rooms).1).
  { induction es as [|e es IH]; intros known rooms Hinv.
    - simpl. now rewrite app_nil_r.
    - rewrite run_cons. cbn [fst].
      assert (Hcons : stream_requests (e :: es)
                      = stream_requests [e] ++ stream_requests es).
      { unfold stream_requests. simpl. now rewrite app_nil_r. }
      rewrite Hcons, app_assoc. now apply IH, step_streams_within. }
  apply (Hrun [] ∅). intros r i c' h' Hin. unfold sessions in Hin.
  now rewrite lookup_empty in Hin.
Qed.

(** ** The router *)

(** The router reads the URL first, outside of any [try]: when [new URL]
    throws, the listener throws before a handler or [serveStatic] is reached,
    and no registry is left.  When the URL is parsed, the listener does not
    throw, and the registry changes through four routes only: a request that
    changes it is a POST to [/join], [/api/join] or [/leave], or a GET to
    [/events]; every other request, a POST to [/signal] and OPTIONS included,
    leaves it as it was. *)
Theorem registry_changes_through_four_routes (rq : request) rooms :
  match req_url rq with
  | None => requestListener rq rooms = Thrown /\ registry_after rq rooms = None
  | Some parsedUrl =>
      requestListener rq rooms <> Thrown
      /\ exists rooms',
           registry_after rq rooms = Some rooms'
           /\ (rooms' <> rooms ->
               (req_method rq = lit "POST"
                /\ (url_pathname parsedUrl = lit "/join"
                    \/ url_pathname parsedUrl = lit "/api/join"
                    \/ url_pathname parsedUrl = lit "/leave"))
               \/ (req_method rq = lit "GET" /\ url_pathname parsedUrl = lit "/events"))
  end.
Proof.
  unfold registry_after, requestListener.
  destruct (req_url rq) as [parsedUrl|]; [|now split].
  repeat case_match; simplify_eq; (split; [discriminate|]);
    eexists; (split; [reflexivity|]); intros Hch; try (now destruct Hch);
    repeat match goal with
      | Hb : _ && _ = true |- _ => apply andb_prop in Hb as [? ?]
      | Hb : _ || _ = true |- _ => apply orb_prop in Hb as [?|?]
      | Hb : bool_decide _ = true |- _ => apply bool_decide_eq_true_1 in Hb
      end; auto.
  exfalso. apply Hch. cbn [fst]. apply handleSignal_registry.
Qed.

End Coverage.

(** ** Static files *)

Section StaticFileFacts.

Variable publicDir : jsstring.
Variable resolve : jsstring -> jsstring.
Variable isFile : jsstring -> bool.
Variable extname : jsstring -> jsstring.

(** [serveStatic] calls itself once at most, so it always answers.  A file
    it serves is a regular file whose resolved path starts with the public
    directory, and is the file asked for or [/index.html]; 404 means that
    neither is a file; 403 means that a resolved path leaves the public
    directory. *)
Theorem serveStatic_answers (fuel : nat) (pathname : jsstring) :
  (2 <= fuel)%nat ->
  exists answer,
    serveStatic publicDir resolve isFile extname fuel pathname = Some answer
    /\ match answer with
       | ServeFile safePath contentType =>
           startsWith safePath publicDir = true /\ isFile safePath = true
           /\ (safePath = resolve pathname \/ safePath = resolve (lit "/index.html"))
           /\ contentType = getMimeType extname safePath
       | NotFound =>
           isFile (resolve pathname) = false
           /\ isFile (resolve (lit "/index.html")) = false
       | Forbidden =>
           startsWith (resolve pathname) publicDir = false
           \/ startsWith (resolve (lit "/index.html")) publicDir = false
       end.
Proof.
  intros Hfuel. destruct fuel as [|[|fuel]]; [lia..|]. cbn [serveStatic].
  destruct (startsWith (resolve pathname) publicDir) eqn:Hin; cbn [negb];
    [|eexists; split; [reflexivity|now left]].
  destruct (isFile (resolve pathname)) eqn:Hfile; cbn [negb];
    [eexists; split; [reflexivity|repeat split; auto]|].
  destruct (bool_decide (pathname = lit "/index.html")) eqn:Hidx; cbn [negb].
  - apply bool_decide_eq_true_1 in Hidx. subst pathname.
    eexists; split; [reflexivity|repeat split; auto].
  - destruct (startsWith (resolve (lit "/index.html")) publicDir) eqn:Hin'; cbn [negb];
      [|eexists; split; [reflexivity|now right]].
    destruct (isFile (resolve (lit "/index.html"))) eqn:Hfile'; cbn [negb];
      [eexists; split; [reflexivity|repeat split; auto]|].
    rewrite bool_decide_eq_true_2 by reflexivity. cbn [negb].
    eexists; split; [reflexivity|repeat split; auto].
Qed.

(** A path that is no file is answered with [/index.html], under the content
    type of its extension, when that is a file of the public directory. *)
Theorem serveStatic_falls_back_to_index (fuel : nat) (pathname : jsstring) :
  (2 <= fuel)%nat ->
  startsWith (resolve pathname) publicDir = true ->
  isFile (resolve pathname) = false ->
  startsWith (resolve (lit "/index.html")) publicDir = true ->
  isFile (resolve (lit "/index.html")) = true ->
  serveStatic publicDir resolve isFile extname fuel pathname
  = Some (ServeFile (resolve (lit "/index.html"))
            (getMimeType extname (resolve (lit "/index.html")))).
Proof.
  intros Hfuel Hin Hfile Hin' Hfile'. destruct fuel as [|[|fuel]]; [lia..|].
  cbn [serveStatic]. rewrite Hin, Hfile. cbn [negb].
  destruct (bool_decide (pathname = lit "/index.html")) eqn:Hidx; cbn [negb].
  - apply bool_decide_eq_true_1 in Hidx. subst pathname. congruence.
  - now rewrite Hin', Hfile'.
Qed.

End StaticFileFacts.

(** ** The retries of the client *)

Section ClientFacts.

Implicit Types (env : nat -> bool * fetched) (attempt fuel : nat).

Lemma sendSignal_bounded env fuel : forall attempt,
  (attempt <= 5)%nat -> (6 <= fuel + attempt)%nat ->
  exists actions result,
    sendSignal fuel env attempt = Some (actions, result)
    /\ (posts actions + attempt <= 6)%nat
    /\ (waited actions + 125 * attempt * (attempt + 1) <= 3750)%nat.
Proof.
  induction fuel as [|fuel IH]; intros attempt Ha Hf; [lia|].
  cbn [sendSignal]. destruct (env attempt) as [joined reply].
  destruct joined; cbn [negb]; [|eexists _, _; split; [reflexivity|simpl; nia]].
  destruct reply as [|status]; [eexists _, _; split; [reflexivity|simpl; nia]|].
  destruct (response_ok status); [eexists _, _; split; [reflexivity|simpl; nia]|].
  destruct ((status =? 409)%nat && (attempt <? SIGNAL_RETRY_LIMIT)%nat) eqn:Hretry;
    [|eexists _, _; split; [reflexivity|simpl; nia]].
  apply andb_prop in Hretry as [_ Hlt]. apply Nat.ltb_lt in Hlt.
  unfold SIGNAL_RETRY_LIMIT in Hlt.
  destruct (IH (attempt + 1)%nat) as (actions & result & -> & Hp & Hw); [lia..|].
  eexists _, _. split; [reflexivity|]. unfold posts, waited, SIGNAL_RETRY_DELAY_MS in *.
  simpl. split; nia.
Qed.

(** [sendSignal] ends after six requests and 3750 ms of waiting at most,
    whatever the server answers. *)
Theorem sendSignal_gives_up env fuel :
  (6 <= fuel)%nat ->
  exists actions result,
    sendSignal fuel env 0 = Some (actions, result)
    /\ (posts actions <= 6)%nat /\ (waited actions <= 3750)%nat.
Proof.
  intros Hf. destruct (sendSignal_bounded env fuel 0%nat) as (a & r & Hs & Hp & Hw);
    [lia..|].
  exists a, r. split; [assumption|]. lia.
Qed.

(** Against a recipient that is never available the client makes the first
    request and five retries, waiting 250, 500, 750, 1000 and 1250 ms
    between them, and then throws with the 409. *)
Theorem sendSignal_retries_on_409 env fuel :
  (6 <= fuel)%nat ->
  (forall attempt, env attempt = (true, Responded 409)) ->
  sendSignal fuel env 0
  = Some ([Post; Wait 250; Post; Wait 500; Post; Wait 750; Post; Wait 1000;
           Post; Wait 1250; Post], Threw (Some 409%nat)).
Proof.
  intros Hf Henv. do 6 (destruct fuel as [|fuel]; [lia|]).
  cbn [sendSignal]. rewrite !Henv. reflexivity.
Qed.

Lemma sendSignal_sent_only_if env fuel : forall attempt actions,
  (attempt <= 5)%nat ->
  sendSignal fuel env attempt = Some (actions, Sent) ->
  exists k status,
    (attempt <= k <= 5)%nat
    /\ (forall i, (attempt <= i < k)%nat -> env i = (true, Responded 409))
    /\ env k = (true, Responded status) /\ response_ok status = true
    /\ posts actions = (k - attempt + 1)%nat.
Proof.
  induction fuel as [|fuel IH]; intros attempt actions Ha; [discriminate|].
  cbn [sendSignal]. destruct (env attempt) as [joined reply] eqn:Henv.
  destruct joined; cbn [negb]; [|discriminate].
  destruct reply as [|status]; [discriminate|].
  destruct (response_ok status) eqn:Hok.
  - intros [= <-]. exists attempt, status. repeat split; auto; try lia.
    unfold posts. simpl. lia.
  - destruct ((status =? 409)%nat && (attempt <? SIGNAL_RETRY_LIMIT)%nat) eqn:Hretry;
      [|discriminate].
    apply andb_prop in Hretry as [H409 Hlt].
    apply Nat.eqb_eq in H409. apply Nat.ltb_lt in Hlt. unfold SIGNAL_RETRY_LIMIT in Hlt.
    subst status.
    destruct (sendSignal fuel env (attempt + 1)) as [[actions' result]|] eqn:Hrec;
      [|discriminate].
    intros [= <- ->].
    destruct (IH (attempt + 1)%nat actions' ltac:(lia) Hrec)
      as (k & status & Hk & Hbefore & Hat & Hok' & Hp).
    exists k, status. repeat split; auto; try lia.
    + intros i Hi. destruct (decide (i = attempt)) as [->|Hne]; [assumption|].
      apply Hbefore. lia.
    + unfold posts in *. simpl. lia.
Qed.

Lemma sendSignal_sent_if env k status : forall fuel attempt,
  (attempt <= k <= 5)%nat -> (k - attempt + 1 <= fuel)%nat ->
  (forall i, (attempt <= i < k)%nat -> env i = (true, Responded 409)) ->
  env k = (true, Responded status) -> response_ok status = true ->
  exists actions, sendSignal fuel env attempt = Some (actions, Sent).
Proof.
  induction fuel as [|fuel IH]; intros attempt Hk Hf Hbefore Hat Hok; [lia|].
  cbn [sendSignal]. destruct (decide (attempt = k)) as [->|Hne].
  - rewrite Hat. cbn [negb]. rewrite Hok. eauto.
  - rewrite (Hbefore attempt) by lia. cbn [negb].
    replace (response_ok 409) with false by reflexivity.
    replace ((409 =? 409)%nat) with true by reflexivity.
    replace ((attempt <? SIGNAL_RETRY_LIMIT)%nat) with true
      by (symmetry; apply Nat.ltb_lt; unfold SIGNAL_RETRY_LIMIT; lia).
    cbn [andb].
    destruct (IH (attempt + 1)%nat) as (actions & ->); eauto; try lia.
    intros i Hi. apply Hbefore. lia.
Qed.

Lemma sendSignal_skipped_only_if env fuel : forall attempt actions,
  (attempt <= 5)%nat ->
  sendSignal fuel env attempt = Some (actions, Skipped) ->
  exists k reply,
    (attempt <= k <= 5)%nat
    /\ (forall i, (attempt <= i < k)%nat -> env i = (true, Responded 409))
    /\ env k = (false, reply)
    /\ posts actions = (k - attempt)%nat.
Proof.
  induction fuel as [|fuel IH]; intros attempt actions Ha; [discriminate|].
  cbn [sendSignal]. destruct (env attempt) as [joined reply] eqn:Henv.
  destruct joined; cbn [negb].
  - destruct reply as [|status]; [discriminate|].
    destruct (response_ok status) eqn:Hok; [discriminate|].
    destruct ((status =? 409)%nat && (attempt <? SIGNAL_RETRY_LIMIT)%nat) eqn:Hretry;
      [|discriminate].
    apply andb_prop in Hretry as [H409 Hlt].
    apply Nat.eqb_eq in H409. apply Nat.ltb_lt in Hlt. unfold SIGNAL_RETRY_LIMIT in Hlt.
    subst status.
    destruct (sendSignal fuel env (attempt + 1)) as [[actions' result]|] eqn:Hrec;
      [|discriminate].
    intros [= <- ->].
    destruct (IH (attempt + 1)%nat actions' ltac:(lia) Hrec)
      as (k & reply & Hk & Hbefore & Hat & Hp).
    exists k, reply. repeat split; auto; try lia.
    + intros i Hi. destruct (decide (i = attempt)) as [->|Hne]; [assumption|].
      apply Hbefore. lia.
    + unfold posts in *. simpl. lia.
  - intros [= <-]. exists attempt, reply. repeat split; auto; try lia.
    unfold posts. simpl. lia.
Qed.

Lemma sendSignal_skipped_if env k reply : forall fuel attempt,
  (attempt <= k <= 5)%nat -> (k - attempt + 1 <= fuel)%nat ->
  (forall i, (attempt <= i < k)%nat -> env i = (true, Responded 409)) ->
  env k = (false, reply) ->
  exists actions, sendSignal fuel env attempt = Some (actions, Skipped).
Proof.
  induction fuel as [|fuel IH]; intros attempt Hk Hf Hbefore Hat; [lia|].
  cbn [sendSignal]. destruct (decide (attempt = k)) as [->|Hne].
  - rewrite Hat. cbn [negb]. eauto.
  - rewrite (Hbefore attempt) by lia. cbn [negb].
    replace (response_ok 409) with false by reflexivity.
    replace ((409 =? 409)%nat) with true by reflexivity.
    replace ((attempt <? SIGNAL_RETRY_LIMIT)%nat) with true
      by (symmetry; apply Nat.ltb_lt; unfold SIGNAL_RETRY_LIMIT; lia).
    cbn [andb].
    destruct (IH (attempt + 1)%nat) as (actions & ->); eauto; try lia.
    intros i Hi. apply Hbefore. lia.
Qed.

(** How [sendSignal] ends is decided by the first of its six attempts that
    is not a 409 met with the client in the room.  The signal is sent exactly
    when that attempt is answered with a success.  [sendSignal] returns
    without a request there, the signal not sent, exactly when that attempt
    finds the client out of the room.  It throws in every other case: the
    attempt is answered with another status or [fetch] rejects, or all six
    are answered with 409. *)
Theorem sendSignal_returns_iff env fuel :
  (6 <= fuel)%nat ->
  let retried k := forall i, (i < k)%nat -> env i = (true, Responded 409) in
  let answered :=
    exists k status,
      (k <= 5)%nat /\ retried k
      /\ env k = (true, Responded status) /\ response_ok status = true in
  let gone := exists k reply, (k <= 5)%nat /\ retried k /\ env k = (false, reply) in
  ((exists actions, sendSignal fuel env 0 = Some (actions, Sent)) <-> answered)
  /\ ((exists actions, sendSignal fuel env 0 = Some (actions, Skipped)) <-> gone)
  /\ ((exists actions status, sendSignal fuel env 0 = Some (actions, Threw status))
      <-> ~ answered /\ ~ gone).
Proof.
  intros Hf retried answered gone.
  assert (Hsent : (exists actions, sendSignal fuel env 0 = Some (actions, Sent))
                  <-> answered).
  { split.
    - intros (actions & Hs).
      destruct (sendSignal_sent_only_if env fuel 0%nat actions ltac:(lia) Hs)
        as (k & status & Hk & Hbefore & Hat & Hok & _).
      exists k, status. repeat split; auto; try lia. intros i Hi. apply Hbefore. lia.
    - intros (k & status & Hk & Hbefore & Hat & Hok).
      apply (sendSignal_sent_if env k status); auto; try lia.
      intros i Hi. apply Hbefore. lia. }
  assert (Hgone : (exists actions, sendSignal fuel env 0 = Some (actions, Skipped))
                  <-> gone).
  { split.
    - intros (actions & Hs).
      destruct (sendSignal_skipped_only_if env fuel 0%nat actions ltac:(lia) Hs)
        as (k & reply & Hk & Hbefore & Hat & _).
      exists k, reply. repeat split; auto; try lia. intros i Hi. apply Hbefore. lia.
    - intros (k & reply & Hk & Hbefore & Hat).
      apply (sendSignal_skipped_if env k reply); auto; try lia.
      intros i Hi. apply Hbefore. lia. }
  split; [exact Hsent|]. split; [exact Hgone|].
  destruct (sendSignal_bounded env fuel 0%nat) as (actions & result & Hrun & _); [lia..|].
  split.
  - intros (actions' & status & Hthrew). rewrite Hthrew in Hrun.
    split; intros Hc; [apply Hsent in Hc|apply Hgone in Hc];
      destruct Hc as (a & Hc); rewrite Hthrew in Hc; discriminate.
  - intros [Hns Hng]. destruct result as [| |status]; [| |eauto].
    + exfalso. apply Hng, Hgone. eauto.
    + exfalso. apply Hns, Hsent. eauto.
Qed.

End ClientFacts.

(** * The properties on the sample registry *)

Section Examples.

Local Ltac fields := unfold signal_request, leave_request, joins; repeat split;
  try discriminate; try reflexivity.

Lemma signal_missing_field_witness :
  exists msg : string,
    handleSignal (signal_body (JStr (lit "r1")) (JStr (lit "A")) (JStr (lit "B")) (JStr []))
      two_peers
    = (two_peers, [ Respond 400 (Some (JSON_stringify
                      (JObj [(lit "error", JStr (lit msg))]))) ]).
Proof.
  apply signal_missing_field_is_invalid_request.
  right. right. right. right. right. reflexivity.
Defined.

(** The scenarios of the specification.  Ada joins [r1] and gets no peer;
    Grace joins and gets Ada.  Nobody has a stream yet, so nothing is
    broadcast. *)
Example scenario_joins :
  (run [jevent ada; jevent grace] ∅).2
  = [ Respond 200 (Some (JSON_stringify (join_response (lit "A") (lit "r1") [])));
      Respond 200 (Some (JSON_stringify
        (join_response (lit "B") (lit "r1") [peer_of ada]))) ].
Proof. reflexivity. Qed.

(** With both streams open, a third Join is announced to both. *)
Example scenario_peer_joined :
  (step carol_joins two_peers).2
  = Respond 200 (Some (JSON_stringify
      (join_response (lit "C") (lit "r1") [peer_of ada; peer_of grace])))
    :: sendEvent 1%nat (lit "peer-joined") (peer_joined_payload (lit "C") (lit "Carol"))
    ++ sendEvent 2%nat (lit "peer-joined") (peer_joined_payload (lit "C") (lit "Carol")).
Proof. reflexivity. Qed.

(** The stream of [B] closes: [A] is told, and a later Signal to [B] is
    answered with 409. *)
Example scenario_stream_closed :
  (run [StreamClosed (lit "r1") (lit "B"); Signal (signal_to "r1" "B")] two_peers).2
  = sendEvent 1%nat (lit "peer-left") (peer_left_payload (lit "B"))
    ++ [error_response 409 "Recipient unavailable"].
Proof. reflexivity. Qed.

(** Falsiness is what the validation tests: an empty object is truthy, and a
    Signal whose [data] is [{}] is delivered. *)
Example signal_empty_object_is_delivered :
  statuses (handleSignal
              (signal_body (JStr (lit "r1")) (JStr (lit "A")) (JStr (lit "B")) (JObj []))
              two_peers).2 = [204%nat].
Proof. reflexivity. Qed.

Lemma signal_unknown_target_witness :
  handleSignal (signal_to "r1" "Z") two_peers
  = (two_peers, [error_response 409 "Recipient unavailable"])
  /\ statuses (handleSignal (signal_to "r1" "Z") two_peers).2 = [409%nat].
Proof.
  apply (signal_unknown_target_is_unavailable _
           (JStr (lit "r1")) (JStr (lit "A")) (JStr (lit "Z")) offer two_peers
           (lit "r1") (lit "Z")
           (RoomData [(lit "A", Client (lit "Ada") (Some 1%nat));
                      (lit "B", Client (lit "Grace") (Some 2%nat))]));
    try (left; reflexivity); fields.
Defined.

(** C1 as stated fails: the room [r1] is in the registry, [Z] is not a key of
    its session table, and the answer is 409, not 404. *)
Lemma signal_unknown_target_is_not_404 :
  is_Some (two_peers !! lit "r1")
  /\ JsMap.get (lit "Z") (sessions (lit "r1") two_peers) = None
  /\ statuses (handleSignal (signal_to "r1" "Z") two_peers).2 = [409%nat]
  /\ statuses (handleSignal (signal_to "r1" "Z") two_peers).2 <> [404%nat].
Proof. vm_compute. repeat split; eauto; discriminate. Qed.

Lemma signal_delivery_witness :
  (handleSignal (signal_to "r1" "B") two_peers
   = (two_peers,
      [ Write 2%nat (lit "event: signal" ++ NL);
        Write 2%nat (lit "data: "
                     ++ JSON_stringify (JObj [(lit "from", JStr (lit "A"));
                                              (lit "data", offer)])
                     ++ NL ++ NL);
        Respond 204 None ])
   /\ statuses (handleSignal (signal_to "r1" "B") two_peers).2 = [204%nat])
  /\ (handleSignal signal_to_C (step carol_joins two_peers).1
      = ((step carol_joins two_peers).1,
         [ Respond 409 (Some (JSON_stringify
             (JObj [(lit "error", JStr (lit "Recipient unavailable"))]))) ])
      /\ stream_effects (handleSignal signal_to_C (step carol_joins two_peers).1).2 = []).
Proof.
  split.
  - destruct (signal_delivery (signal_to "r1" "B")
                (JStr (lit "r1")) (JStr (lit "A")) (JStr (lit "B")) offer
                two_peers (lit "r1") (lit "B") room_r1
                (Client (lit "Grace") (Some 2%nat)))
      as (Hout & Hstatus & _); [fields..|].
    split; [exact Hout|exact Hstatus].
  - destruct (signal_delivery signal_to_C
                (JStr (lit "r1")) (JStr (lit "A")) (JStr (lit "C")) offer
                (step carol_joins two_peers).1 (lit "r1") (lit "C")
                (RoomData (clients room_r1 ++ [(lit "C", Client (lit "Carol") None)]))
                (Client (lit "Carol") None))
      as (Hout & _ & Hnone); [fields..|].
    split; [exact Hout|exact Hnone].
Defined.

Lemma signal_sender_witness :
  (handleSignal
     (signal_body (JStr (lit "r1")) (JStr (lit "nobody")) (JStr (lit "B")) offer)
     two_peers).2
  = [ Write 2%nat (lit "event: signal" ++ NL);
      Write 2%nat (lit "data: "
                   ++ JSON_stringify (JObj [(lit "from", JStr (lit "nobody"));
                                            (lit "data", offer)])
                   ++ NL ++ NL);
      Respond 204 None ].
Proof.
  destruct (signal_sender_not_validated
              (signal_body (JStr (lit "r1")) (JStr (lit "nobody")) (JStr (lit "B")) offer)
              (signal_to "r1" "B")
              (JStr (lit "r1")) (JStr (lit "nobody")) (JStr (lit "A")) (JStr (lit "B"))
              offer two_peers)
    as (_ & _ & _ & _ & Hdelivered); [fields..|].
  apply (Hdelivered (lit "r1") (lit "B") room_r1 (Client (lit "Grace") (Some 2%nat)));
    reflexivity.
Defined.


Lemma teardown_witness :
  (run [Leave (leave_of_B "r1"); StreamClosed (lit "r1") (lit "B");
        Leave (leave_of_B "r1")] two_peers).1
  = (step (Leave (leave_of_B "r1")) two_peers).1.
Proof.
  apply (teardown_is_idempotent (Leave (leave_of_B "r1"))
           [StreamClosed (lit "r1") (lit "B"); Leave (leave_of_B "r1")]
           (lit "r1") (lit "B") two_peers).
  - exists (JStr (lit "r1")), (JStr (lit "B")). fields.
  - repeat constructor. exists (JStr (lit "r1")), (JStr (lit "B")). fields.
Defined.

Lemma room_lifecycle_witness :
  sessions (lit "r1") (step (jevent ada) ∅).1 = [(lit "A", Client (lit "Ada") None)]
  /\ is_Some ((step (Leave (leave_of_B "r1")) two_peers).1 !! lit "r1")
  /\ (step (Leave (leave_body (JStr (lit "r1")) (JStr (lit "A"))))
           (step (jevent ada) ∅).1).1 !! lit "r1" = None.
Proof.
  destruct (room_in_registry_iff_has_sessions (number := N) [] (lit "r1"))
    as (_ & _ & Hjoin & Hstay & Hlast).
  split; [|split].
  - apply (Hjoin ∅ (jevent ada)); fields.
  - apply (Hstay two_peers (Leave (leave_of_B "r1")) (lit "B")
             (Client (lit "Grace") (Some 2%nat))).
    + exists (JStr (lit "r1")), (JStr (lit "B")). fields.
    + reflexivity.
    + exists (lit "A"), (Client (lit "Ada") (Some 1%nat)).
      split; [discriminate|left; reflexivity].
  - apply (Hlast _ _ (lit "A") (Client (lit "Ada") None)); [|reflexivity].
    exists (JStr (lit "r1")), (JStr (lit "A")). fields.
Defined.

Lemma join_broadcast_witness :
  exists body notifications,
    (step carol_joins two_peers).2 = Respond 200 (Some body) :: notifications
    /\ notifications = broadcast (lit "r1") (lit "C") (lit "peer-joined")
                         (peer_joined_payload (lit "C") (lit "Carol"))
                         (step carol_joins two_peers).1
    /\ Forall (fun eff => exists h chunk id c,
                 eff = Write h chunk /\ In (id, c) (sessions (lit "r1") two_peers)
                 /\ id <> lit "C" /\ res c = Some h) notifications.
Proof.
  apply (join_response_precedes_broadcast carol_joins (lit "r1") (lit "Carol") (lit "C")).
  fields.
Defined.

Lemma join_succeeds_witness :
  statuses (step carol_joins two_peers).2 = [200%nat]
  /\ sessions (lit "r1") (step carol_joins two_peers).1
     = sessions (lit "r1") two_peers ++ [(lit "C", Client (lit "Carol") None)].
Proof.
  destruct (join_always_succeeds carol_joins (lit "r1") (lit "Carol") (lit "C") two_peers)
    as (_ & Hstatus & _ & _ & _ & Hlast & _); [fields|].
  split; [exact Hstatus|]. apply Hlast.
  intros [Heq|[Heq|[]]]; discriminate.
Defined.

(** C8 as stated fails: [" r1 "] and ["r1"] differ only in surrounding
    whitespace and Join took the first for the room [r1], yet a Signal to
    [" r1 "] finds no room where a Signal to ["r1"] is delivered, a Leave from
    [" r1 "] removes nobody and a stream cannot be opened in [" r1 "]. *)
Lemma room_id_not_trimmed_outside_join :
  trim (lit " r1 ") = lit "r1"
  /\ statuses (handleSignal (signal_to "r1" "B") two_peers).2 = [204%nat]
  /\ statuses (handleSignal (signal_to " r1 " "B") two_peers).2 = [404%nat]
  /\ (handleLeave (leave_of_B " r1 ") two_peers).1 = two_peers
  /\ (handleLeave (leave_of_B "r1") two_peers).1 <> two_peers
  /\ statuses (handleEventStream (Some (lit " r1 ")) (Some (lit "A")) 3%nat two_peers).2
     = [404%nat].
Proof. vm_compute. repeat split; discriminate. Qed.

Lemma room_id_witness :
  handleJoin (join_body (JStr (lit " r1 ")) (JStr (lit "Carol"))) (lit "C") two_peers
  = register_and_respond (lit "r1") (lit "Carol") (lit "C") two_peers
  /\ handleSignal (signal_to " r1 " "B") two_peers
     = (two_peers, [ Respond 404 (Some (JSON_stringify
                       (JObj [(lit "error", JStr (lit "Room not found"))]))) ])
  /\ handleLeave (leave_of_B " r1 ") two_peers = (two_peers, [Respond 204 None])
  /\ handleEventStream (Some (lit " r1 ")) (Some (lit "A")) 3%nat two_peers
     = (two_peers, [Respond 404 (Some (lit "Client not registered in room"))]).
Proof.
  destruct (@room_id_trimmed_by_join_only N sample_engine) as (HJ & _ & HS & HL & HE).
  split; [|split; [|split]].
  - apply (HJ _ _ _ (JStr (lit " r1 ")) (lit " r1 ")); fields.
  - apply (HS _ (JStr (lit " r1 ")) (JStr (lit "A")) (JStr (lit "B")) offer _ (lit " r1 "));
      fields.
  - apply (HL _ (lit " r1 ") (lit "B")); [|reflexivity].
    exists (JStr (lit " r1 ")), (JStr (lit "B")). fields.
  - apply HE; fields.
Defined.

End Examples.

(** * The further properties on the samples *)

Section MoreExamples.

Local Ltac fields := unfold signal_request, leave_request, joins; repeat split;
  try discriminate; try reflexivity.

Lemma two_peers_no_empty_room : no_empty_room two_peers.
Proof.
  apply (run_invariant two_peers_events ∅). intros r room.
  now rewrite lookup_empty.
Qed.

Lemma join_blank_field_witness :
  exists msg : string,
    handleJoin (join_body (JStr (lit "   ")) (JStr (lit "Ada"))) (lit "C") two_peers
    = (two_peers, [ Respond 400 (Some (JSON_stringify
                      (JObj [(lit "error", JStr (lit msg))]))) ]).
Proof.
  apply join_blank_field_is_rejected. left. right.
  exists (lit "   "). split; reflexivity.
Defined.

Lemma handler_rejections_witness :
  handler (lit "GET") None None (lit "C") two_peers
  = Some (two_peers, [Respond 405 None])
  /\ handler (lit "POST") None None (lit "C") two_peers
     = Some (two_peers, [ Respond 400 (Some (JSON_stringify
                            (JObj [(lit "error", JStr (lit "Missing room or name"))]))) ]).
Proof.
  split.
  - apply (handler_rejections (lit "GET")). discriminate.
  - apply (handler_rejections (lit "POST")); [reflexivity|]. left. reflexivity.
Defined.

Lemma leave_missing_field_witness :
  exists msg : string,
    handleLeave (leave_body (JStr (lit "r1")) (JStr [])) two_peers
    = (two_peers, [ Respond 400 (Some (JSON_stringify
                      (JObj [(lit "error", JStr (lit msg))]))) ]).
Proof. apply leave_missing_field_is_rejected. right. reflexivity. Defined.

Lemma join_notifies_witness :
  (step carol_joins two_peers).2
  = [ Respond 200 (Some (JSON_stringify
        (JObj [(lit "clientId", JStr (lit "C")); (lit "room", JStr (lit "r1"));
               (lit "peers", JArr [peer_of ada; peer_of grace])])));
      Write 1%nat (lit "event: peer-joined" ++ NL);
      Write 1%nat (lit "data: "
                   ++ JSON_stringify (JObj [(lit "clientId", JStr (lit "C"));
                                            (lit "name", JStr (lit "Carol"))])
                   ++ NL ++ NL);
      Write 2%nat (lit "event: peer-joined" ++ NL);
      Write 2%nat (lit "data: "
                   ++ JSON_stringify (JObj [(lit "clientId", JStr (lit "C"));
                                            (lit "name", JStr (lit "Carol"))])
                   ++ NL ++ NL) ].
Proof.
  refine (join_notifies_every_attached_peer carol_joins (lit "r1") (lit "Carol") (lit "C")
            two_peers _).
  fields.
Defined.

Lemma teardown_notifies_witness :
  (removeClient (lit "r1") (lit "B") two_peers).2
  = [ End 2%nat;
      Write 1%nat (lit "event: peer-left" ++ NL);
      Write 1%nat (lit "data: "
                   ++ JSON_stringify (JObj [(lit "clientId", JStr (lit "B"))])
                   ++ NL ++ NL) ].
Proof.
  apply (teardown_notifies_every_remaining_peer (lit "r1") (lit "B") two_peers
           (Client (lit "Grace") (Some 2%nat))).
  reflexivity.
Defined.

Lemma getRoom_witness : getRoom (lit "r1") two_peers = (two_peers, room_r1).
Proof.
  destruct (getRoom_gets_or_creates (lit "r1") two_peers) as (_ & Hthere & _).
  apply Hthere. reflexivity.
Defined.

Lemma stream_open_attaches_witness :
  JsMap.get (lit "A")
    (sessions (lit "r1")
       (handleEventStream (Some (lit "r1")) (Some (lit "A")) 5%nat
          two_peers).1)
  = Some (Client (lit "Ada") (Some 5%nat)).
Proof.
  apply (stream_open_attaches (lit "r1") (lit "A") 5%nat two_peers
           (Client (lit "Ada") (Some 1%nat))); try discriminate.
  reflexivity.
Defined.

Lemma stream_open_refusals_witness :
  handleEventStream (Some (lit "r1")) (Some (lit "Z")) 5%nat two_peers
  = (two_peers, [Respond 404 (Some (lit "Client not registered in room"))]).
Proof.
  destruct (stream_open_refusals (Some (lit "r1")) (Some (lit "Z")) 5%nat two_peers)
    as [_ H404].
  apply (H404 (lit "r1") (lit "Z")); try discriminate; reflexivity.
Defined.

Lemma only_join_adds_sessions_witness :
  exists c0,
    JsMap.get (lit "A") (sessions (lit "r1") two_peers) = Some c0
    /\ name c0 = lit "Ada".
Proof.
  apply (only_join_adds_sessions (number := N) (StreamClosed (lit "r1") (lit "B"))
           two_peers I (lit "r1") (lit "A") (Client (lit "Ada") (Some 1%nat))).
  reflexivity.
Defined.

Lemma events_touch_one_room_witness :
  (step carol_joins two_peers).1 !! lit "r2" = two_peers !! lit "r2".
Proof.
  apply (events_touch_one_room carol_joins (lit "r1") (lit "C") two_peers).
  - left. exists (lit "Carol"). fields.
  - discriminate.
Defined.

Lemma round_trip_witness :
  (run [carol_joins; EventStream (Some (lit "r1")) (Some (lit "C")) 5%nat;
        StreamClosed (lit "r1") (lit "C")] two_peers).1
  = two_peers.
Proof.
  apply (join_then_teardown_restores_registry carol_joins
           (StreamClosed (lit "r1") (lit "C")) (lit "r1") (lit "Carol") (lit "C")
           [5%nat] two_peers).
  - exact two_peers_no_empty_room.
  - reflexivity.
  - fields.
  - split; reflexivity.
Defined.

Lemma signal_after_teardown_witness :
  statuses (handleSignal (signal_to "r1" "B")
              (step (Leave (leave_of_B "r1")) two_peers).1).2 = [409%nat]
  /\ statuses (handleSignal (signal_to "r1" "A")
                 (step (StreamClosed (lit "r1") (lit "A")) (step (jevent ada) ∅).1).1).2
     = [404%nat].
Proof.
  split.
  - destruct (signal_after_teardown_is_refused (Leave (leave_of_B "r1")) (lit "r1") (lit "B")
                two_peers (signal_to "r1" "B")
                (JStr (lit "r1")) (JStr (lit "A")) (JStr (lit "B")) offer)
      as (_ & _ & _ & Hstays);
      [exists (JStr (lit "r1")), (JStr (lit "B")); fields|fields..|].
    apply (Hstays (lit "A") (Client (lit "Ada") (Some 1%nat)));
      [left; reflexivity|discriminate].
  - destruct (signal_after_teardown_is_refused (StreamClosed (lit "r1") (lit "A"))
                (lit "r1") (lit "A") (step (jevent ada) ∅).1 (signal_to "r1" "A")
                (JStr (lit "r1")) (JStr (lit "A")) (JStr (lit "A")) offer)
      as (_ & _ & Hlast & _); [split; reflexivity|fields..|].
    apply (Hlast (Client (lit "Ada") None)). reflexivity.
Defined.

Lemma signal_before_stream_witness :
  handleSignal signal_to_C (step carol_joins two_peers).1
  = ((step carol_joins two_peers).1,
     [ Respond 409 (Some (JSON_stringify
         (JObj [(lit "error", JStr (lit "Recipient unavailable"))]))) ]).
Proof.
  apply (signal_before_stream_is_unavailable carol_joins (lit "r1") (lit "Carol") (lit "C")
           two_peers _ (JStr (lit "r1")) (JStr (lit "A")) (JStr (lit "C")) offer);
    fields.
Defined.

Lemma signal_after_join_and_open_witness :
  (handleSignal signal_to_C
     (run [carol_joins; EventStream (Some (lit "r1")) (Some (lit "C")) 5%nat]
          two_peers).1).2
  = [ Write 5%nat (lit "event: signal" ++ NL);
      Write 5%nat (lit "data: "
                   ++ JSON_stringify (JObj [(lit "from", JStr (lit "A"));
                                            (lit "data", offer)])
                   ++ NL ++ NL);
      Respond 204 None ].
Proof.
  refine (f_equal snd
    (signal_after_join_and_open_is_delivered carol_joins (lit "r1") (lit "Carol") (lit "C")
       5%nat two_peers signal_to_C (JStr (lit "r1")) (JStr (lit "A")) (JStr (lit "C")) offer
       _ _ _ _ _)); fields.
Defined.

Lemma last_stream_open_wins_witness :
  (handleSignal (signal_to "r1" "B")
     (run [EventStream (Some (lit "r1")) (Some (lit "B")) 5%nat;
           EventStream (Some (lit "r1")) (Some (lit "B")) 6%nat] two_peers).1).2
  = [ Write 6%nat (lit "event: signal" ++ NL);
      Write 6%nat (lit "data: "
                   ++ JSON_stringify (JObj [(lit "from", JStr (lit "A"));
                                            (lit "data", offer)])
                   ++ NL ++ NL);
      Respond 204 None ].
Proof.
  refine (f_equal snd
    (last_stream_open_wins (lit "r1") (lit "B") 5%nat 6%nat two_peers
       (Client (lit "Grace") (Some 2%nat)) (signal_to "r1" "B")
       (JStr (lit "r1")) (JStr (lit "A")) (JStr (lit "B")) offer _ _ _ _ _ _));
    fields.
Defined.

Lemma registry_stays_tidy_witness : tidy_room_id (lit "r1").
Proof.
  apply (registry_stays_tidy two_peers_events (lit "r1") room_r1). reflexivity.
Defined.

Lemma streams_come_from_witness : In 2%nat (stream_requests two_peers_events).
Proof.
  apply (streams_come_from_stream_requests two_peers_events (lit "r1") (lit "B")
           (Client (lit "Grace") (Some 2%nat)) 2%nat); [|reflexivity].
  right. left. reflexivity.
Defined.

Lemma four_routes_witness :
  (requestListener get_invalid_url two_peers = Thrown
   /\ registry_after get_invalid_url two_peers = None)
  /\ (requestListener post_join two_peers <> Thrown
      /\ exists rooms',
           registry_after post_join two_peers = Some rooms'
           /\ (rooms' <> two_peers ->
               (req_method post_join = lit "POST"
                /\ (lit "/api/join" = lit "/join" \/ lit "/api/join" = lit "/api/join"
                    \/ lit "/api/join" = lit "/leave"))
               \/ (req_method post_join = lit "GET" /\ lit "/api/join" = lit "/events"))).
Proof.
  split.
  - exact (registry_changes_through_four_routes get_invalid_url two_peers).
  - exact (registry_changes_through_four_routes post_join two_peers).
Defined.

Lemma serveStatic_answers_witness :
  exists answer,
    serveStatic sample_publicDir sample_resolve sample_isFile sample_extname 2
      (lit "/app.js") = Some answer
    /\ match answer with
       | ServeFile safePath contentType =>
           startsWith safePath sample_publicDir = true /\ sample_isFile safePath = true
           /\ (safePath = sample_resolve (lit "/app.js")
               \/ safePath = sample_resolve (lit "/index.html"))
           /\ contentType = getMimeType sample_extname safePath
       | NotFound =>
           sample_isFile (sample_resolve (lit "/app.js")) = false
           /\ sample_isFile (sample_resolve (lit "/index.html")) = false
       | Forbidden =>
           startsWith (sample_resolve (lit "/app.js")) sample_publicDir = false
           \/ startsWith (sample_resolve (lit "/index.html")) sample_publicDir = false
       end.
Proof. apply serveStatic_answers. lia. Defined.

Lemma serveStatic_fallback_witness :
  serveStatic sample_publicDir sample_resolve sample_isFile sample_extname 2
    (lit "/room/42")
  = Some (ServeFile (lit "/app/public/index.html") (lit "text/html; charset=utf-8")).
Proof.
  apply (serveStatic_falls_back_to_index sample_publicDir sample_resolve sample_isFile
           sample_extname 2 (lit "/room/42")); [lia|reflexivity..].
Defined.

Lemma sendSignal_gives_up_witness :
  exists actions result,
    sendSignal 6 always_409 0 = Some (actions, result)
    /\ (posts actions <= 6)%nat /\ (waited actions <= 3750)%nat.
Proof. apply sendSignal_gives_up. lia. Defined.

Lemma sendSignal_retries_witness :
  sendSignal 6 always_409 0
  = Some ([Post; Wait 250; Post; Wait 500; Post; Wait 750; Post; Wait 1000;
           Post; Wait 1250; Post], Threw (Some 409%nat)).
Proof. apply sendSignal_retries_on_409; [lia|reflexivity]. Defined.

Lemma sendSignal_returns_witness :
  (exists actions, sendSignal 6 third_time_lucky 0 = Some (actions, Sent))
  /\ (exists actions, sendSignal 6 leaves_while_waiting 0 = Some (actions, Skipped)).
Proof.
  split.
  - destruct (sendSignal_returns_iff third_time_lucky 6) as (Hsent & _); [lia|].
    apply Hsent. exists 2%nat, 204%nat. repeat split; try reflexivity; try lia.
    intros i Hi. unfold third_time_lucky.
    destruct i as [|[|i]]; [reflexivity..|lia].
  - destruct (sendSignal_returns_iff leaves_while_waiting 6) as (_ & Hgone & _); [lia|].
    apply Hgone. exists 1%nat, (Responded 409). repeat split; try reflexivity; try lia.
    intros i Hi. destruct i as [|i]; [reflexivity|lia].
Defined.

End MoreExamples.
